(** * Property24 scraper: extraction, deduplication and pagination

    A shallow embedding of [backend/scraper/scraper.py] (class
    [Property24Scraper]) and the properties of its extraction and
    deduplication engine.

    Conventions.
    - A Python [str] is a list of Unicode code points ([list N]); [len] is
      [length].
    - The Unicode database of the Python runtime (white space, decimal
      digits, lower-casing) is a parameter, the class [Unicode].
    - A BeautifulSoup element is represented by what the scraper observes
      of it through the bs4 API (record [Tag]).
    - A Python [set] is a [gset]; the [dict] built for one listing is the
      record [property_data], one optional field per key. *)

From Stdlib Require Import ZArith NArith String Ascii List Lia.
From stdpp Require Import base decidable option list gmap.

Set Warnings "-register-all".

Local Open Scope N_scope.

(** ** Python strings *)

Abbreviation pystr := (list N).

Module PyStr.

(** An ASCII literal as a Python string. *)
Definition str (s : string) : pystr :=
  List.map N_of_ascii (list_ascii_of_string s).

(** [s.startswith(p)] *)
Fixpoint startswith (s p : pystr) {struct p} : bool :=
  match p, s with
  | [], _ => true
  | _ :: _, [] => false
  | a :: p', b :: s' => (a =? b) && startswith s' p'
  end.

(** [needle in hay] *)
Fixpoint contains (needle hay : pystr) : bool :=
  startswith hay needle ||
  match hay with
  | [] => false
  | _ :: hay' => contains needle hay'
  end.

(** [s.replace(c, by)] for a one-character [c]. *)
Definition replace (c : N) (by_ : pystr) (s : pystr) : pystr :=
  flat_map (fun x => if x =? c then by_ else [x]) s.

(** Decimal rendering of a non-negative integer, as [str(n)] or an
    f-string does it. *)
Definition digit_char (d : N) : N := 48 + d.

Fixpoint uint_chars (u : Decimal.uint) : pystr :=
  match u with
  | Decimal.Nil => []
  | Decimal.D0 u' => digit_char 0 :: uint_chars u'
  | Decimal.D1 u' => digit_char 1 :: uint_chars u'
  | Decimal.D2 u' => digit_char 2 :: uint_chars u'
  | Decimal.D3 u' => digit_char 3 :: uint_chars u'
  | Decimal.D4 u' => digit_char 4 :: uint_chars u'
  | Decimal.D5 u' => digit_char 5 :: uint_chars u'
  | Decimal.D6 u' => digit_char 6 :: uint_chars u'
  | Decimal.D7 u' => digit_char 7 :: uint_chars u'
  | Decimal.D8 u' => digit_char 8 :: uint_chars u'
  | Decimal.D9 u' => digit_char 9 :: uint_chars u'
  end.

Definition str_of_N (n : N) : pystr := uint_chars (N.to_uint n).

Definition str_of_int (z : Z) : pystr :=
  match z with
  | Zneg p => 45 :: str_of_N (Npos p)
  | _ => str_of_N (Z.to_N z)
  end.

End PyStr.

(** ** The Unicode database

    [isspace c]: [c] is in the class [\s] of [re] (for [str] patterns: the
    characters for which [str.isspace] holds).
    [decimal c]: the value of [c] as a decimal digit, when it is one; [\d]
    matches exactly these characters and [int] reads them.
    [lower s]: [s.lower()]; it is not a character-wise map in general
    (final sigma, characters lower-casing to several code points). *)
Class Unicode := {
  isspace : N -> bool;
  decimal : N -> option N;
  lower : pystr -> pystr;
}.

(** The database restricted to Basic Latin and Latin-1 Supplement
    (code points below 256). *)
Module Latin1.

Definition space (c : N) : bool :=
  ((9 <=? c) && (c <=? 13)) || ((28 <=? c) && (c <=? 32))
  || (c =? 133) || (c =? 160).

Definition digit (c : N) : option N :=
  if (48 <=? c) && (c <=? 57) then Some (c - 48) else None.

Definition lower_char (c : N) : N :=
  if (65 <=? c) && (c <=? 90) then c + 32
  else if (192 <=? c) && (c <=? 222) && negb (c =? 215) then c + 32
  else c.

Definition lower_str (s : pystr) : pystr := List.map lower_char s.

Definition db : Unicode :=
  {| isspace := space; decimal := digit; lower := lower_str |}.

End Latin1.

(** [int(s)] for a string [s] that starts and ends with a decimal digit and
    holds nothing but decimal digits and white space, which is all the
    scraper converts: the value when every character is a digit, a
    [ValueError] otherwise. *)
Fixpoint digits_value {U : Unicode} (s : pystr) (acc : N) : option N :=
  match s with
  | [] => Some acc
  | c :: s' =>
      match decimal c with
      | Some v => digits_value s' (10 * acc + v)
      | None => None
      end
  end.

(** Two databases classify the characters of [s] alike. *)
Definition agree_on (U V : Unicode) (s : pystr) : Prop :=
  Forall (fun c => @isspace U c = @isspace V c
                   /\ @decimal U c = @decimal V c) s.

(** A database agrees with Python's on Latin-1 text. *)
Definition latin1_compatible (U : Unicode) : Prop :=
  (forall c, c < 256 ->
     @isspace U c = Latin1.space c /\ @decimal U c = Latin1.digit c)
  /\ (forall s, Forall (fun c => c < 256) s -> @lower U s = Latin1.lower_str s).

(** Every character of [s] is below 256. *)
Definition latin1_text (s : pystr) : bool := forallb (fun c => c <? 256) s.

(** ** Regular expressions

    The fragment of Python's [re] that the scraper's patterns use, with the
    backtracking semantics of [re.search]: the leftmost start position, at
    each position the first match in priority order (greedy repetitions try
    one more iteration before they stop, alternatives are tried left to
    right). Every pattern of the scraper has at most one capturing group. *)
Module Re.

(** One entry of a character set. *)
Inductive item :=
| Chr (c : N)        (* a literal character *)
| Digit              (* \d *)
| Space.             (* \s *)

Inductive regex :=
| Eps
| Set_ (negated : bool) (items : list item)       (* one character *)
| Cat (r1 r2 : regex)
| Alt (r1 r2 : regex)
| Rep (lo : nat) (hi : option nat) (r : regex)    (* greedy r{lo,hi} *)
| Grp (r : regex).                                (* group 1 *)

Section Matching.
Context {U : Unicode}.

Definition item_matches (c : N) (i : item) : bool :=
  match i with
  | Chr a => a =? c
  | Digit => match decimal c with Some _ => true | None => false end
  | Space => isspace c
  end.

Definition set_matches (negated : bool) (items : list item) (c : N) : bool :=
  xorb negated (existsb (item_matches c) items).

(** [c] is a decimal digit. *)
Definition is_digit (c : N) : Prop := is_Some (decimal c).

Definition below (n : nat) (hi : option nat) : bool :=
  match hi with
  | None => true
  | Some h => (n <? h)%nat
  end.

(** A greedy repetition of [body], [n] iterations done: one more iteration
    is tried before the repetition stops; an iteration has to consume
    input (all repeated sub-patterns of the scraper do), so [length s]
    turns of [fuel] never cut a repetition short. *)
Section Iterate.
Context {A : Type}.
Variable body : pystr -> option pystr ->
                (pystr -> option pystr -> option A) -> option A.
Variables (lo : nat) (hi : option nat).
Variable k : pystr -> option pystr -> option A.

Fixpoint iterate (fuel n : nat) (s : pystr) (cap : option pystr) : option A :=
  let more :=
    match fuel with
    | O => None
    | S fuel' =>
        if below n hi then
          body s cap (fun s1 cap1 =>
            if (length s1 <? length s)%nat
            then iterate fuel' (S n) s1 cap1 else None)
        else None
    end in
  match more with
  | Some a => Some a
  | None => if (lo <=? n)%nat then k s cap else None
  end.

End Iterate.

(** [rmatch r s cap k]: match [r] at the head of [s]; [k] receives the rest
    of the input and the text captured so far and decides whether the
    remainder of the pattern matches; [None] makes [rmatch] backtrack. *)
Fixpoint rmatch {A} (r : regex) (s : pystr) (cap : option pystr)
    (k : pystr -> option pystr -> option A) {struct r} : option A :=
  match r with
  | Eps => k s cap
  | Set_ negated items =>
      match s with
      | c :: s' => if set_matches negated items c then k s' cap else None
      | [] => None
      end
  | Cat r1 r2 => rmatch r1 s cap (fun s1 cap1 => rmatch r2 s1 cap1 k)
  | Alt r1 r2 =>
      match rmatch r1 s cap k with
      | Some a => Some a
      | None => rmatch r2 s cap k
      end
  | Rep lo hi r1 => iterate (rmatch r1) lo hi k (length s) O s cap
  | Grp r1 =>
      rmatch r1 s cap (fun s1 _ =>
        k s1 (Some (firstn (length s - length s1) s)))
  end.

(** [re.search(r, s)]: [Some cap] when [r] matches somewhere in [s], with
    [cap] the text of group 1 ([None] when the group took no part). *)
Fixpoint search (r : regex) (s : pystr) : option (option pystr) :=
  match rmatch r s None (fun _ cap => Some cap) with
  | Some cap => Some cap
  | None =>
      match s with
      | [] => None
      | _ :: s' => search r s'
      end
  end.

Definition matches (r : regex) (s : pystr) : bool :=
  match search r s with Some _ => true | None => false end.

End Matching.

(** Pattern builders. *)
Definition chr (c : N) : regex := Set_ false [Chr c].
Definition lit (s : string) : regex :=
  fold_right (fun c r => Cat (chr c) r) Eps (PyStr.str s).
Definition d : regex := Set_ false [Digit].
Definition s_ : regex := Set_ false [Space].
Definition star (r : regex) : regex := Rep 0 None r.
Definition plus (r : regex) : regex := Rep 1 None r.
Definition opt (r : regex) : regex := Rep 0 (Some 1%nat) r.
Definition oneof (l : list item) : regex := Set_ false l.
Definition noneof (l : list item) : regex := Set_ true l.
Definition cat (l : list regex) : regex := fold_right Cat Eps l.

(** The pattern has no capturing group. *)
Fixpoint grp_free (r : regex) : bool :=
  match r with
  | Eps | Set_ _ _ => true
  | Cat r1 r2 | Alt r1 r2 => grp_free r1 && grp_free r2
  | Rep _ _ r1 => grp_free r1
  | Grp _ => false
  end.

End Re.

(** ** Exceptions *)

Inductive exn := TypeError | ValueError.

Inductive exc (A : Type) :=
| Ok (a : A)
| Raise (e : exn).
Arguments Ok {A} a.
Arguments Raise {A} e.

Definition exc_bind {A B} (m : exc A) (f : A -> exc B) : exc B :=
  match m with
  | Ok a => f a
  | Raise e => Raise e
  end.

(** [let! x := m in f]: run [m]; an exception it raises propagates. *)
Notation "'let!' x := m 'in' f" := (exc_bind m (fun x => f))
  (at level 10, x name, m at level 100, f at level 200).

(** ** JSON values, as [json.loads] returns them *)

(** A Python [float]: [Finite m e] is [m * 2^e]. *)
Inductive pyfloat :=
| Finite (m e : Z)
| Inf (negative : bool)
| NaN.

Inductive json :=
| JNull
| JBool (b : bool)
| JInt (z : Z)
| JFloat (f : pyfloat)
| JStr (s : pystr)
| JArr (items : list json)
| JObj (members : list (pystr * json)).   (* a dict, in insertion order *)

(** What a [set] compares: two hashable values are equal in Python exactly
    when their keys are. [True == 1 == 1.0]; the [NaN] of [json.loads] is
    one object, found again by identity. *)
Inductive hkey :=
| KNone
| KNum (m : Z) (e : Z)
| KInf (negative : bool)
| KNaN
| KStr (s : pystr).

#[global] Instance hkey_eq_dec : EqDecision hkey.
Proof. solve_decision. Defined.

Definition hkey_enc (k : hkey) : unit + Z * Z + bool + unit + pystr :=
  match k with
  | KNone => inl (inl (inl (inl tt)))
  | KNum m e => inl (inl (inl (inr (m, e))))
  | KInf b => inl (inl (inr b))
  | KNaN => inl (inr tt)
  | KStr s => inr s
  end.

Definition hkey_dec (x : unit + Z * Z + bool + unit + pystr) : hkey :=
  match x with
  | inl (inl (inl (inl _))) => KNone
  | inl (inl (inl (inr (m, e)))) => KNum m e
  | inl (inl (inr b)) => KInf b
  | inl (inr _) => KNaN
  | inr s => KStr s
  end.

#[global] Instance hkey_countable : Countable hkey.
Proof.
  refine (inj_countable' hkey_enc hkey_dec _).
  intros []; reflexivity.
Defined.

(** [m * 2^e] with [m] odd (or zero). *)
Fixpoint strip2 (p : positive) (e : Z) : positive * Z :=
  match p with
  | xO q => strip2 q (e + 1)%Z
  | _ => (p, e)
  end.

Definition num_key (m e : Z) : hkey :=
  match m with
  | Z0 => KNum 0 0
  | Zpos p => let (q, e') := strip2 p e in KNum (Zpos q) e'
  | Zneg p => let (q, e') := strip2 p e in KNum (Zneg q) e'
  end.

(** [None]: the value is unhashable ([hash] raises [TypeError]). *)
Definition hash_key (v : json) : option hkey :=
  match v with
  | JNull => Some KNone
  | JBool b => Some (num_key (if b then 1 else 0) 0)
  | JInt z => Some (num_key z 0)
  | JFloat (Finite m e) => Some (num_key m e)
  | JFloat (Inf b) => Some (KInf b)
  | JFloat NaN => Some KNaN
  | JStr s => Some (KStr s)
  | JArr _ | JObj _ => None
  end.

(** ** BeautifulSoup elements, as the scraper observes them *)

(** An [<img>] tag. *)
Record img_tag := {
  img_class : list pystr;        (* img.get('class', []): the class tokens *)
  img_data_src : option pystr;   (* img.get('data-src') *)
  img_src : option pystr;        (* img.get('src') *)
}.

(** A [bs4.element.Tag]. *)
Inductive Tag := MkTag {
  e_name : pystr;                (* element.name *)
  e_text : pystr;                (* element.get_text(separator=' ', strip=True) *)
  e_raw_text : pystr;            (* element.get_text() *)
  e_anchors : list pystr;        (* link['href'] for link in
                                    element.find_all('a', href=True) *)
  e_imgs : list img_tag;         (* element.find_all('img') *)
  e_styles : list pystr;         (* el['style'] for every descendant that
                                    has a style attribute *)
  e_json_scripts : list (exc json);
                                 (* json.loads(script.string) for script in
                                    element.find_all('script',
                                                     type='application/json') *)
  e_parent : option Tag;     (* element.parent *)
}.

(** The element with other embedded JSON scripts. *)
Definition with_scripts (element : Tag) (scripts : list (exc json)) : Tag :=
  {| e_name := e_name element; e_text := e_text element;
     e_raw_text := e_raw_text element; e_anchors := e_anchors element;
     e_imgs := e_imgs element; e_styles := e_styles element;
     e_json_scripts := scripts; e_parent := e_parent element |}.

(** A parsed page: [soup.select(selector)]. *)
Record soup := { select : pystr -> list Tag }.

(** ** The scraper: [class Property24Scraper] *)
Module Scraper.
Import PyStr.

(** One listing: the [dict] that [_extract_property_data_enhanced] builds,
    a field per key, [None] when the key is not set. The key ['price'] can
    be set to Python's [None]: [price = Some None]. *)
Record property_data := {
  price : option (option Z);
  bedrooms : option Z;
  bathrooms : option Z;
  size_sqm : option Z;
  type : pystr;
  url : option pystr;
  images : option (list json);
  highlights : option (list pystr);
  title : pystr;
  neighborhood_vibe : option pystr;
  area : option pystr;
  selector_used : option pystr;
}.

(** [bool(s)] for a string. *)
Definition truthy (s : pystr) : bool :=
  match s with [] => false | _ => true end.

(** [x or y] on attribute values ([None] or a string). *)
Definition or_else (x y : option pystr) : option pystr :=
  match x with
  | Some u => if truthy u then x else y
  | None => y
  end.

(** [img_url if it starts with 'http', 'https:' + img_url if it starts with
    '//', else 'https://www.property24.com' + img_url] *)
Definition full_url (img_url : pystr) : pystr :=
  if startswith img_url (str "http") then img_url
  else if startswith img_url (str "//") then str "https:" ++ img_url
  else str "https://www.property24.com" ++ img_url.

(** The pattern [url\( Q? ([^Q]+) Q? \)] of method 2, where [Q] stands for
    the two quote characters (code points 34 and 39). *)
Definition bg_url_re : Re.regex :=
  Re.cat [Re.lit "url("; Re.opt (Re.oneof [Re.Chr 34; Re.Chr 39]);
          Re.Grp (Re.plus (Re.noneof [Re.Chr 34; Re.Chr 39]));
          Re.opt (Re.oneof [Re.Chr 34; Re.Chr 39]); Re.lit ")"].

Definition image_keys : list pystr :=
  [str "images"; str "gallery"; str "photos"; str "imageUrl"; str "image"].

Definition is_image_key (key : pystr) : bool :=
  existsb (fun k => bool_decide (k = key)) image_keys.

(** [item['url']] when ['url' in item]. *)
Fixpoint dict_get (members : list (pystr * json)) (key : pystr) : option json :=
  match members with
  | [] => None
  | (k, v) :: rest => if bool_decide (k = key) then Some v else dict_get rest key
  end.

(** The inner loop over the items of an image list. *)
Definition collect_item (images : list json) (item : json) : list json :=
  match item with
  | JStr s => if startswith s (str "http") then images ++ [item] else images
  | JObj members =>
      match dict_get members (str "url") with
      | Some v => images ++ [v]
      | None => images
      end
  | _ => images
  end.

(** [_extract_images_from_json(data, images, depth)]; the list [images] is
    extended in place, here it is threaded through. *)
Fixpoint _extract_images_from_json (data : json) (images : list json)
    (depth : nat) {struct data} : list json :=
  if (5 <? depth)%nat then images
  else
    match data with
    | JObj members =>
        (fix items (members : list (pystr * json)) (images : list json) :=
           match members with
           | [] => images
           | (key, value) :: rest =>
               items rest
                 (if is_image_key key then
                    match value with
                    | JArr l => fold_left collect_item l images
                    | _ => images
                    end
                  else
                    match value with
                    | JObj _ | JArr _ =>
                        _extract_images_from_json value images (S depth)
                    | _ => images
                    end)
           end) members images
    | JArr l =>
        (fix each (l : list json) (images : list json) :=
           match l with
           | [] => images
           | item :: rest =>
               each rest
                 (match item with
                  | JObj _ => _extract_images_from_json item images (S depth)
                  | _ => images
                  end)
           end) l images
    | _ => images
    end.

Section WithUnicode.
Context {U : Unicode}.

(** Method 1, one [<img>] tag. ['icon' in str(img.get('class', []))]: the
    string of a list of class tokens contains [icon] exactly when one of
    the tokens does (quotes and escapes put no letter between two). *)
Definition from_img (images : list json) (img : img_tag) : list json :=
  if existsb (contains (str "icon")) (img_class img) then images
  else
    match or_else (img_data_src img) (img_src img) with
    | Some img_url =>
        if truthy img_url then
          if contains (str "data:image") img_url
             || contains (str "placeholder") img_url
          then images
          else
            let img_url := full_url img_url in
            if existsb (fun pattern => contains pattern img_url)
                 [str "property24"; str "listing"; str "property"; str "p24"]
            then images ++ [JStr img_url]
            else images
        else images
    | None => images
    end.

(** Method 2, one element whose style matches [background-image]. *)
Definition from_style (images : list json) (style : pystr) : list json :=
  match Re.search bg_url_re style with
  | Some (Some g) =>
      let img_url := full_url g in
      if contains (str "property") img_url || contains (str "listing") img_url
      then images ++ [JStr img_url]
      else images
  | _ => images
  end.

(** Method 3, one script: a failure of [json.loads] is caught and the
    script passed over; only a [dict] is walked. *)
Definition from_script (images : list json) (script : exc json) : list json :=
  match script with
  | Ok (JObj members) => _extract_images_from_json (JObj members) images 0
  | Ok _ => images
  | Raise _ => images
  end.

(** The list [images] after the three methods. *)
Definition gather_images (element : Tag) : list json :=
  let images := fold_left from_img (e_imgs element) [] in
  let images :=
    fold_left from_style
      (List.filter (Re.matches (Re.lit "background-image")) (e_styles element))
      images in
  fold_left from_script (e_json_scripts element) images.

(** "Remove duplicates while preserving order": [img not in seen] hashes
    [img] and raises [TypeError] when it cannot. *)
Fixpoint remove_duplicates (images : list json) (seen : gset hkey)
    (unique_images : list json) : exc (list json) :=
  match images with
  | [] => Ok unique_images
  | img :: rest =>
      match hash_key img with
      | None => Raise TypeError
      | Some k =>
          if decide (k ∈ seen) then remove_duplicates rest seen unique_images
          else remove_duplicates rest ({[k]} ∪ seen) (unique_images ++ [img])
      end
  end.

(** The body of the [try] block of [extract_property_images]. *)
Definition extract_property_images_try (element : Tag) : exc (list json) :=
  match remove_duplicates (gather_images element) ∅ [] with
  | Ok unique_images => Ok (firstn 5 unique_images)
  | Raise e => Raise e
  end.

(** [extract_property_images(element)]: [except Exception: return []]. *)
Definition extract_property_images (element : Tag) : list json :=
  match extract_property_images_try element with
  | Ok unique_images => unique_images
  | Raise _ => []
  end.


(** [int(s)], see [digits_value]. *)
Definition py_int (s : pystr) : exc Z :=
  match s with
  | [] => Raise ValueError
  | _ =>
      match digits_value s 0 with
      | Some n => Ok (Z.of_N n)
      | None => Raise ValueError
      end
  end.

(** [R\s*(\d{1,3}(?:[\s,]*\d{3})+)] *)
Definition price_re : Re.regex :=
  Re.cat [Re.lit "R"; Re.star Re.s_;
          Re.Grp (Re.Cat (Re.Rep 1 (Some 3%nat) Re.d)
                    (Re.plus (Re.Cat (Re.star (Re.oneof [Re.Space; Re.Chr 44]))
                                (Re.Rep 3 (Some 3%nat) Re.d))))].

(** [(\d+)\s*[Bb]ed] *)
Definition bed_re : Re.regex :=
  Re.cat [Re.Grp (Re.plus Re.d); Re.star Re.s_;
          Re.oneof [Re.Chr 66; Re.Chr 98]; Re.lit "ed"].

(** [(\d+)\s*[Bb]ath] *)
Definition bath_re : Re.regex :=
  Re.cat [Re.Grp (Re.plus Re.d); Re.star Re.s_;
          Re.oneof [Re.Chr 66; Re.Chr 98]; Re.lit "ath"].

(** [(\d+)\s*m[²2]] under [re.IGNORECASE]: the letter m in either case (no
    other character lower-cases to it); digits, white space and the
    superscript two (code point 178) have no case. *)
Definition size_re : Re.regex :=
  Re.cat [Re.Grp (Re.plus Re.d); Re.star Re.s_;
          Re.oneof [Re.Chr 109; Re.Chr 77]; Re.oneof [Re.Chr 178; Re.Chr 50]].

(** [[\s-]?] *)
Definition sep : Re.regex := Re.opt (Re.oneof [Re.Space; Re.Chr 45]).

Definition feature_patterns : list (Re.regex * pystr) :=
  [ (Re.lit "pool", str "Pool");
    (Re.Alt (Re.lit "garage") (Re.lit "parking"), str "Parking");
    (Re.lit "garden", str "Garden");
    (Re.lit "security", str "Security");
    (Re.lit "balcony", str "Balcony");
    (Re.cat [Re.lit "pet"; sep; Re.lit "friendly"], str "Pet Friendly");
    (Re.lit "furnished", str "Furnished");
    (Re.Alt (Re.cat [Re.lit "sea"; sep; Re.lit "view"])
            (Re.cat [Re.lit "ocean"; sep; Re.lit "view"]), str "Sea Views");
    (Re.cat [Re.lit "mountain"; sep; Re.lit "view"], str "Mountain Views") ].

(** [int(m.group(1))] for an optional match [m] of a pattern whose group
    is [(\d+)]: the key is set when the pattern matched. *)
Definition int_group (m : option (option pystr)) : exc (option Z) :=
  match m with
  | Some (Some g) => let! n := py_int g in Ok (Some n)
  | Some None => Raise TypeError
  | None => Ok None
  end.

(** The price step: [None] rejects the fragment; otherwise the ['price']
    key and the ['type'] that the step may set. *)
Definition price_step (text : pystr)
    : option (option (option Z) * option pystr) :=
  match Re.search price_re text with
  | Some g =>
      (* try: ... except: pass *)
      let price_str := match g with
                       | Some g => Some (replace 32 [] (replace 44 [] g))
                       | None => None
                       end in
      match price_str with
      | Some price_str =>
          match py_int price_str with
          | Ok n => Some (Some (Some n), None)
          | Raise _ => Some (None, None)
          end
      | None => Some (None, None)
      end
  | None =>
      if contains (str "development") (lower text)
      then Some (Some None, Some (str "Development"))
      else None
  end.

Definition property_type (text_lower : pystr) (type0 : option pystr) : pystr :=
  if contains (str "apartment") text_lower || contains (str "flat") text_lower
  then str "Apartment"
  else if contains (str "house") text_lower then str "House"
  else if contains (str "townhouse") text_lower then str "Townhouse"
  else match type0 with Some t => t | None => str "Property" end.

(** [link = element.find('a', href=True)], then the test on [link['href']]. *)
Definition listing_url (element : Tag) : option pystr :=
  match e_anchors element with
  | href :: _ =>
      if contains (str "/for-sale/") href
      then Some (if startswith href (str "http") then href
                 else str "https://www.property24.com" ++ href)
      else None
  | [] => None
  end.

Definition features (text_lower : pystr) : list pystr :=
  fold_left (fun features pf =>
               if Re.matches (fst pf) text_lower then features ++ [snd pf]
               else features)
            feature_patterns [].

(** [bool(property_data.get('bedrooms'))] *)
Definition has_bedrooms (b : option Z) : bool :=
  match b with
  | Some n => negb (n =? 0)%Z
  | None => false
  end.

(** The text passes the length gate. *)
Definition in_gate (text : pystr) : Prop :=
  (30 <= length text <= 2000)%nat.

(** [_extract_property_data_enhanced(element, extract_images)]:
    [Ok None] is the source's [return None]. *)
Definition _extract_property_data_enhanced (element : Tag)
    (extract_images : bool) : exc (option property_data) :=
  let text := e_text element in
  if (length text <? 30)%nat || (2000 <? length text)%nat then Ok None
  else
    match price_step text with
    | None => Ok None
    | Some (price, type0) =>
        let! bedrooms := int_group (Re.search bed_re text) in
        let! bathrooms := int_group (Re.search bath_re text) in
        let! size_sqm := int_group (Re.search size_re text) in
        let text_lower := lower text in
        let type := property_type text_lower type0 in
        let url := listing_url element in
        let images :=
          if extract_images then
            match extract_property_images element with
            | [] => None
            | images => Some images
            end
          else None in
        let highlights :=
          match features text_lower with
          | [] => None
          | features => Some features
          end in
        let title :=
          if has_bedrooms bedrooms
          then str_of_int (default 0%Z bedrooms) ++ str " Bedroom " ++ type
          else type in
        let neighborhood_vibe :=
          if contains (str "walking distance") text_lower
          then Some (str "Walking distance to amenities")
          else None in
        Ok (Some {| price := price; bedrooms := bedrooms;
                    bathrooms := bathrooms; size_sqm := size_sqm;
                    type := type; url := url; images := images;
                    highlights := highlights; title := title;
                    neighborhood_vibe := neighborhood_vibe;
                    area := None; selector_used := None |})
    end.


(** A string between double quotes (code point 34). *)
Definition quoted (s : string) : pystr := [34] ++ str s ++ [34].

Definition class_has (tag word : string) : pystr :=
  str tag ++ str "[class*=" ++ quoted word ++ str "]".

Definition selectors : list pystr :=
  [ class_has "div" "listing";
    class_has "div" "p24_";
    class_has "div" "tile";
    class_has "div" "property";
    class_has "article" "listing";
    class_has "div" "result";
    str ".p24_regularTile";
    str ".js_listingTile";
    str "[data-listing-number]";
    class_has "div" "sc_listingTile";
    class_has "div" "ListingTile";
    class_has "div" "propertyTile";
    str "a[href*=" ++ quoted "/for-sale/" ++ str "][href*=" ++ quoted "plId="
      ++ str "]" ].

(** [while container and len(container.get_text()) < 50:
       container = container.parent] *)
Fixpoint enclosing (container : Tag) : option Tag :=
  if (length (e_raw_text container) <? 50)%nat then
    match e_parent container with
    | Some parent => enclosing parent
    | None => None
    end
  else Some container.

(** "Handle link elements - get parent container" *)
Definition container_of (element : Tag) : option Tag :=
  if bool_decide (e_name element = str "a") then
    match e_parent element with
    | Some parent => enclosing parent
    | None => None
    end
  else Some element.

(** The same-page key [(prop.get('price'), prop.get('bedrooms'),
    prop.get('size_sqm'))]. *)
Definition dedup_key (prop : property_data) : option Z * option Z * option Z :=
  (mjoin (price prop), bedrooms prop, size_sqm prop).

(** [prop['area'] = area; prop['selector_used'] = selector] *)
Definition stamp (area selector : pystr) (prop : property_data) : property_data :=
  {| price := price prop; bedrooms := bedrooms prop;
     bathrooms := bathrooms prop; size_sqm := size_sqm prop;
     type := type prop; url := url prop; images := images prop;
     highlights := highlights prop; title := title prop;
     neighborhood_vibe := neighborhood_vibe prop;
     area := Some area; selector_used := Some selector |}.

(** A [for] loop over [l] that threads the state [s] and stops at the first
    exception. *)
Fixpoint for_each {A S} (body : S -> A -> exc S) (l : list A) (s : S) : exc S :=
  match l with
  | [] => Ok s
  | x :: l' => let! s' := body s x in for_each body l' s'
  end.

(** The state of [_extract_all_properties_from_page]:
    [all_properties] and [seen_prices_and_beds]. *)
Definition page_state : Type :=
  list property_data * gset (option Z * option Z * option Z).

(** The body of the inner loop, for one matched element. *)
Definition visit (area selector : pystr) (extract_images : bool)
    (acc : page_state) (element : Tag) : exc page_state :=
  match container_of element with
  | Some container =>
      let! prop := _extract_property_data_enhanced container extract_images in
      match prop with
      | Some prop =>
          let key := dedup_key prop in
          if decide (key ∈ acc.2) then Ok acc
          else Ok (acc.1 ++ [stamp area selector prop], {[key]} ∪ acc.2)
      | None => Ok acc
      end
  | None => Ok acc
  end.

(** [_extract_all_properties_from_page(soup, area, extract_images)] *)
Definition _extract_all_properties_from_page (soup : soup) (area : pystr)
    (extract_images : bool) : exc (list property_data) :=
  let! acc :=
    for_each (fun acc selector =>
                for_each (visit area selector extract_images)
                         (select soup selector) acc)
             selectors ([], ∅) in
  Ok acc.1.

(** The records of the accepted fragments of a page, in the order the two
    loops meet them, each with the selector that located it: what the
    page assembler deduplicates. *)
Definition fragment (extract_images : bool) (element : Tag) : list property_data :=
  match container_of element with
  | Some container =>
      match _extract_property_data_enhanced container extract_images with
      | Ok (Some prop) => [prop]
      | _ => []
      end
  | None => []
  end.

Definition discovered (soup : soup) (extract_images : bool)
    : list (pystr * property_data) :=
  flat_map (fun selector =>
              List.map (pair selector)
                (flat_map (fragment extract_images) (select soup selector)))
           selectors.

(** The body of the inner loop on a discovered record: the test on
    [seen_prices_and_beds]. *)
Definition keep (area : pystr) (acc : page_state)
    (c : pystr * property_data) : page_state :=
  let key := dedup_key c.2 in
  if decide (key ∈ acc.2) then acc
  else (acc.1 ++ [stamp area c.1 c.2], {[key]} ∪ acc.2).

(** The listing URL of a record when [prop.get('url', '')] is truthy. *)
Definition present_url (prop : property_data) : option pystr :=
  match url prop with
  | Some u => if truthy u then Some u else None
  | None => None
  end.

Definition present_urls (props : list property_data) : list pystr :=
  omap present_url props.

(** The records without a listing URL ([prop.get('url', '')] is falsy),
    in order and with their repetitions. *)
Definition without_url (props : list property_data) : list property_data :=
  filter (fun prop => present_url prop = None) props.

(** *** Pagination: [scrape_area] *)

Definition PROPERTY24_AREA_CODES : gmap pystr Z :=
  list_to_map
    [ (str "sea-point", 11021%Z); (str "green-point", 11017%Z);
      (str "camps-bay", 11014%Z); (str "clifton", 11015%Z);
      (str "fresnaye", 11016%Z); (str "mouille-point", 11018%Z);
      (str "de-waterkant", 9141%Z); (str "gardens", 9145%Z);
      (str "oranjezicht", 9155%Z); (str "tamboerskloof", 9163%Z);
      (str "vredehoek", 9166%Z) ].

(** What [self.session.get(url, timeout=15)] answers, with the page of
    [BeautifulSoup(response.text, 'html.parser')]. *)
Record response := {
  status_code : Z;
  page_soup : soup;
}.

(** The local variables of the [while] loop. *)
Record state := {
  all_properties : list property_data;
  seen_urls : gset pystr;
  page : Z;
  consecutive_empty_pages : Z;
}.

(** The trace of a run: every call of [session.get], with the records
    accepted from the page when the iteration reached the end of its body. *)
Record event := {
  requested : pystr;
  accepted : option (list property_data);
}.

Inductive step := Break | Next (st : state).

(** "Filter duplicates": the loop over [page_properties], on
    [(new_properties, seen_urls)]. *)
Definition filter_step (acc : list property_data * gset pystr)
    (prop : property_data) : list property_data * gset pystr :=
  let prop_url := default [] (url prop) in
  if truthy prop_url && negb (bool_decide (prop_url ∈ acc.2))
  then (acc.1 ++ [prop], {[prop_url]} ∪ acc.2)
  else if negb (truthy prop_url) then (acc.1 ++ [prop], acc.2)
  else acc.

Definition filter_duplicates (page_properties : list property_data)
    (seen_urls : gset pystr) : list property_data * gset pystr :=
  fold_left filter_step page_properties ([], seen_urls).

Section Run.
(** The transport, and the arguments of [scrape_area]. *)
Variable session_get : pystr -> exc response.
Variables (area transaction_type : pystr).
Variable max_pages : option Z.
Variable extract_images : bool.

Definition area_normalized : pystr :=
  replace 95 (str "-") (replace 32 (str "-") (lower area)).

Definition page_url (area_code page : Z) : pystr :=
  str "https://www.property24.com/" ++ transaction_type ++ str "/"
    ++ area_normalized ++ str "/cape-town/western-cape/"
    ++ str_of_int area_code
    ++ (if (1 <? page)%Z then str "?Page=" ++ str_of_int page else []).

(** [max_pages and page > max_pages] *)
Definition beyond_ceiling (page : Z) : bool :=
  match max_pages with
  | Some m => negb (m =? 0)%Z && (m <? page)%Z
  | None => false
  end.

(** One turn of [while True]. *)
Definition iteration (area_code : Z) (st : state) : step * list event :=
  if (2 <=? consecutive_empty_pages st)%Z then (Break, [])
  else if beyond_ceiling (page st) then (Break, [])
  else
    let url := page_url area_code (page st) in
    let failed := (Break, [{| requested := url; accepted := None |}]) in
    (* try: ... except Exception: break *)
    match session_get url with
    | Raise _ => failed
    | Ok response =>
        if negb (status_code response =? 200)%Z then failed
        else
          match _extract_all_properties_from_page (page_soup response) area
                  extract_images with
          | Raise _ => failed
          | Ok page_properties =>
              let '(new_properties, seen) :=
                filter_duplicates page_properties (seen_urls st) in
              (Next {| all_properties :=
                         match new_properties with
                         | [] => all_properties st
                         | _ => all_properties st ++ new_properties
                         end;
                       seen_urls := seen;
                       page := (page st + 1)%Z;
                       consecutive_empty_pages :=
                         match new_properties with
                         | [] => (consecutive_empty_pages st + 1)%Z
                         | _ => 0%Z
                         end |},
               [{| requested := url; accepted := Some new_properties |}])
          end
    end.

(** The loop; [None] when [fuel] turns do not reach a [break]. *)
Fixpoint scrape_loop (area_code : Z) (fuel : nat) (st : state)
    : option (list property_data * list event) :=
  match fuel with
  | O => None
  | S fuel' =>
      match iteration area_code st with
      | (Break, events) => Some (all_properties st, events)
      | (Next st', events) =>
          match scrape_loop area_code fuel' st' with
          | Some (result, later) => Some (result, events ++ later)
          | None => None
          end
      end
  end.

(** The loop invariant: [seen_urls] holds the present URLs of the records
    collected so far, and these are pairwise distinct. *)
Definition consistent (st : state) : Prop :=
  NoDup (present_urls (all_properties st))
  /\ forall u, u ∈ seen_urls st <-> u ∈ present_urls (all_properties st).

(** The page behind an event of the trace: it was fetched with status 200
    and assembled, [new] are the records accepted from it, and they keep
    every record of the page that has no URL. *)
Definition processed (ev : event) (new : list property_data) : Prop :=
  exists response page_properties,
    session_get (requested ev) = Ok response
    /\ status_code response = 200%Z
    /\ _extract_all_properties_from_page (page_soup response) area
         extract_images = Ok page_properties
    /\ new `sublist_of` page_properties
    /\ forall prop, prop ∈ page_properties ->
         present_url prop = None -> prop ∈ new.

(** The records accepted page by page. *)
Definition chunks (events : list event) : list (list property_data) :=
  omap accepted events.

(** The records of the page behind a request: what the page assembler
    makes of the page when the fetch answers with status 200, and nothing
    when the fetch fails. *)
Definition page_records (url : pystr) : list property_data :=
  match session_get url with
  | Ok response =>
      if (status_code response =? 200)%Z then
        match _extract_all_properties_from_page (page_soup response) area
                extract_images with
        | Ok page_properties => page_properties
        | Raise _ => []
        end
      else []
  | Raise _ => []
  end.

(** Why a run of [events] requests has ended: the last fetch failed, the
    next page lies beyond the ceiling, or the last two pages each gave no
    new record. *)
Definition stopped (events : list event) : Prop :=
  (exists ev, last events = Some ev /\ accepted ev = None)
  \/ beyond_ceiling (Z.of_nat (length events) + 1) = true
  \/ (exists front e1 e2,
        events = front ++ [e1; e2]
        /\ accepted e1 = Some [] /\ accepted e2 = Some []).

Definition initial : state :=
  {| all_properties := []; seen_urls := ∅; page := 1%Z;
     consecutive_empty_pages := 0%Z |}.

(** [scrape_area(area, transaction_type, max_pages, extract_images)]: the
    returned list and the trace of the run. *)
Definition scrape_area (fuel : nat) : option (list property_data * list event) :=
  match PROPERTY24_AREA_CODES !! area_normalized with
  | Some area_code =>
      if (area_code =? 0)%Z then Some ([], [])
      else scrape_loop area_code fuel initial
  | None => Some ([], [])
  end.

End Run.

End WithUnicode.

End Scraper.

(** ** The rest of [Property24Scraper] *)
Module ScraperRest.
Import PyStr Scraper.

(** The chain [element.parent], [element.parent.parent], ... up to the
    document. *)
Fixpoint ancestors (element : Tag) : list Tag :=
  match e_parent element with
  | Some parent => parent :: ancestors parent
  | None => []
  end.

(** An absolute URL that names a listing image. *)
Definition listing_image (v : json) : Prop :=
  exists s, v = JStr s
    /\ startswith s (str "http") = true
    /\ contains (str "property") s || contains (str "listing") s
       || contains (str "p24") s = true.

(** [data] under [d] nested objects: [{data: {data: ... data ...}}]. *)
Fixpoint wrapped (d : nat) (data : json) : json :=
  match d with
  | O => data
  | S d' => JObj [(str "data", wrapped d' data)]
  end.

(** The embedded block [{images: [url]}]. *)
Definition image_list (url : pystr) : json :=
  JObj [(str "images", JArr [JStr url])].


(** The transport failed: it raised, or answered with another status
    than 200. *)
Definition fetch_failed (session_get : pystr -> exc response) (u : pystr)
    : Prop :=
  (exists x, session_get u = Raise x)
  \/ (exists response, session_get u = Ok response
                       /\ status_code response <> 200%Z).

(** The highlights in the order of [feature_patterns]. *)
Definition vocabulary : list pystr := List.map snd feature_patterns.

(** What [scrape_property_details_page] observes of the parsed page. *)
Record details_soup := {
  gallery_container : option Tag;
    (* soup.find('div', class_=re.compile('gallery|carousel|slider|images')) *)
  page_imgs : list img_tag;
    (* soup.find_all('img') *)
  description_el : option pystr;
    (* description_el.get_text(strip=True) for description_el =
       soup.find('div', class_=re.compile('description|content|details')) *)
}.




(** [property|listing|p24] *)
Definition src_re : Re.regex :=
  Re.Alt (Re.lit "property") (Re.Alt (Re.lit "listing") (Re.lit "p24")).

(** [src in gallery_images], for a string [src]: list membership compares
    with [==], and a string equals no value of another type. *)
Definition str_in (src : pystr) (gallery_images : list json) : bool :=
  existsb (fun v => match v with
                    | JStr s => bool_decide (s = src)
                    | _ => false
                    end) gallery_images.

(** The body of the loop over [all_images]. *)
Definition add_page_img (gallery_images : list json) (img : img_tag)
    : list json :=
  match or_else (img_src img) (img_data_src img) with
  | Some src =>
      if truthy src && negb (str_in src gallery_images)
      then gallery_images ++ [JStr (full_url src)]
      else gallery_images
  | None => gallery_images
  end.

Section WithUnicode.
Context {U : Unicode}.

(** [_extract_property_data_simple(element)] *)
Definition _extract_property_data_simple (element : Tag)
    : exc (option property_data) :=
  _extract_property_data_enhanced element false.

(** [soup.find_all('img', src=re.compile('property|listing|p24'))] *)
Definition all_images (soup : details_soup) : list img_tag :=
  List.filter (fun img => match img_src img with
                          | Some src => Re.matches src_re src
                          | None => false
                          end) (page_imgs soup).

(** [gallery_images] before the cut to ten. *)
Definition gallery_images (soup : details_soup) : list json :=
  let gallery_images :=
    match gallery_container soup with
    | Some container => extract_property_images container
    | None => []
    end in
  fold_left add_page_img (all_images soup) gallery_images.


End WithUnicode.

End ScraperRest.

(** ** The caller: [property24_integration.py] *)
Module Integration.
Import PyStr Scraper.

(** The dict that [transform_scraper_output] returns; a key whose value is
    [None] is removed, here the field is [None]. *)
Record api_property := {
  api_title : pystr;
  api_area : pystr;
  api_price : option Z;
  api_bedrooms : option Z;
  api_bathrooms : option Z;
  api_size_sqm : option Z;
  api_property_type : pystr;
  api_url : option pystr;
  api_neighborhood_vibe : option pystr;
  api_selector_used : option pystr;
  api_images : list pystr;
  api_highlights : list pystr;
}.

(** [isinstance(img, str) and (img.startswith("http://") or
    img.startswith("https://"))] *)
Definition valid_image (img : json) : option pystr :=
  match img with
  | JStr s =>
      if startswith s (str "http://") || startswith s (str "https://")
      then Some s else None
  | _ => None
  end.

(** [transform_scraper_output(scraper_property)], on a record of the
    scraper (which always has a title and a type). *)
Definition transform_scraper_output (scraper_property : property_data)
    : api_property :=
  let images := default [] (images scraper_property) in
  {| api_title := title scraper_property;
     api_area := default (str "Unknown") (area scraper_property);
     api_price := mjoin (price scraper_property);
     api_bedrooms := bedrooms scraper_property;
     api_bathrooms := bathrooms scraper_property;
     api_size_sqm := size_sqm scraper_property;
     api_property_type := type scraper_property;
     api_url := url scraper_property;
     api_neighborhood_vibe := neighborhood_vibe scraper_property;
     api_selector_used := selector_used scraper_property;
     api_images :=
       match images with
       | [] => []
       | _ => firstn 5 (omap valid_image images)
       end;
     api_highlights := default [] (highlights scraper_property) |}.

End Integration.

(** ** Concrete fragments, pages and runs

    Latin-1 inputs, evaluated with the Latin-1 database. *)
Module Examples.
Import PyStr Scraper.

(** The text [R 1 250 000 2 Bed 1 Bath 85m² Pool Security]; the superscript
    two is code point 178. *)
Definition text_c9 : pystr :=
  str "R 1 250 000 2 Bed 1 Bath 85m" ++ [178] ++ str " Pool Security".

(** A [<div>] with the given text, whose anchors have the given targets. *)
Definition listing (text : pystr) (hrefs : list pystr) : Tag :=
  {| e_name := str "div"; e_text := text; e_raw_text := text;
     e_anchors := hrefs; e_imgs := []; e_styles := [];
     e_json_scripts := []; e_parent := None |}.

Definition tag_c9 : Tag := listing text_c9 [].

Definition record_c9 : property_data :=
  {| price := Some (Some 1250000%Z); bedrooms := Some 2%Z;
     bathrooms := Some 1%Z; size_sqm := Some 85%Z; type := str "Property";
     url := None; images := None;
     highlights := Some [str "Pool"; str "Security"];
     title := str "2 Bedroom Property"; neighborhood_vibe := None;
     area := None; selector_used := None |}.

(** No price, the word development, and a type keyword. *)
Definition tag_development_apartment : Tag :=
  listing (str "New development of luxury apartment units") [].

(** No price, the word development, too short for the length gate. *)
Definition tag_development_short : Tag :=
  listing (str "luxury development") [].

(** No price, the word development, no type keyword. *)
Definition tag_development : Tag :=
  listing (str "New development launching soon in Sea Point") [].

(** The first anchor leads elsewhere, the second to the listing. *)
Definition tag_two_anchors : Tag :=
  listing text_c9 [str "/agents/1"; str "/for-sale/sea-point/1"].

Definition tag_one_anchor : Tag :=
  listing text_c9 [str "/for-sale/sea-point/1"].

(** An image tag, and an embedded JSON block
    [{images: [{url: {}}]}] whose url is a dict. *)
Definition tag_unhashable : Tag :=
  {| e_name := str "div"; e_text := text_c9; e_raw_text := text_c9;
     e_anchors := [];
     e_imgs := [{| img_class := []; img_data_src := None;
                   img_src := Some (str "/images/property/1.jpg") |}];
     e_styles := [];
     e_json_scripts :=
       [Ok (JObj [(str "images", JArr [JObj [(str "url", JObj [])]])])];
     e_parent := None |}.

(** A page on which the first selector matches the given elements and the
    other selectors nothing. *)
Definition page_of (elements : list Tag) : soup :=
  {| select := fun selector =>
       if bool_decide (selector = class_has "div" "listing") then elements
       else [] |}.

Definition url_page1 : pystr :=
  str "https://www.property24.com/for-sale/sea-point/cape-town/western-cape/11021".

Definition url_page2 : pystr := url_page1 ++ str "?Page=2".

Definition not_found : exc response :=
  Ok {| status_code := 404%Z; page_soup := page_of [] |}.

(** Two pages, one listing each: the same price, bedrooms and size, two
    different URLs; no third page. *)
Definition two_pages (u : pystr) : exc response :=
  if bool_decide (u = url_page1) then
    Ok {| status_code := 200%Z;
          page_soup := page_of [listing text_c9 [str "/for-sale/sea-point/1"]] |}
  else if bool_decide (u = url_page2) then
    Ok {| status_code := 200%Z;
          page_soup := page_of [listing text_c9 [str "/for-sale/sea-point/2"]] |}
  else not_found.

(** One page with two fragments without URL, the same price, bedrooms and
    size, and different highlights. *)
Definition page_without_urls : soup :=
  page_of [listing text_c9 []; listing (text_c9 ++ str " Garden") []].

Definition one_page (u : pystr) : exc response :=
  if bool_decide (u = url_page1) then
    Ok {| status_code := 200%Z; page_soup := page_without_urls |}
  else not_found.

(** A site that answers every page number with the same page. *)
Definition same_page (u : pystr) : exc response :=
  Ok {| status_code := 200%Z;
        page_soup := page_of [listing text_c9 [str "/for-sale/sea-point/1"]] |}.

Definition run_two_pages : option (list property_data * list event) :=
  @scrape_area Latin1.db two_pages (str "Sea Point") (str "for-sale") None true 3.

Definition run_one_page : option (list property_data * list event) :=
  @scrape_area Latin1.db one_page (str "Sea Point") (str "for-sale") None true 2.


(** A site that answers every page number with the same page of two
    listings: one with a URL, and one without URL and with another price. *)
Definition mixed_page (u : pystr) : exc response :=
  Ok {| status_code := 200%Z;
        page_soup :=
          page_of [listing text_c9 [str "/for-sale/sea-point/1"];
                   listing (str "R 2 500 000 3 Bed 2 Bath 120m" ++ [178]
                              ++ str " Garden Parking") []] |}.

(** With a ceiling of three pages. *)
Definition run_mixed_page : option (list property_data * list event) :=
  @scrape_area Latin1.db mixed_page (str "Sea Point") (str "for-sale")
    (Some 3%Z) true 4.

Definition no_record : property_data :=
  {| price := None; bedrooms := None; bathrooms := None; size_sqm := None;
     type := []; url := None; images := None; highlights := None;
     title := []; neighborhood_vibe := None; area := None;
     selector_used := None |}.

Definition record_of (x : exc (option property_data)) : property_data :=
  match x with
  | Ok (Some r) => r
  | _ => no_record
  end.

Definition record_one_anchor : property_data :=
  Eval vm_compute in
    record_of (@_extract_property_data_enhanced Latin1.db tag_one_anchor true).

Definition result_two_pages : list property_data :=
  Eval vm_compute in default [] (fst <$> run_two_pages).

Definition trace_two_pages : list event :=
  Eval vm_compute in default [] (snd <$> run_two_pages).



Definition result_mixed_page : list property_data :=
  Eval vm_compute in default [] (fst <$> run_mixed_page).

Definition trace_mixed_page : list event :=
  Eval vm_compute in default [] (snd <$> run_mixed_page).

End Examples.

(** ** More fragments and pages *)
Module MoreExamples.
Import PyStr Scraper ScraperRest Integration Examples.

(** A price, 3 bedrooms and the word townhouse. *)
Definition tag_townhouse : Tag :=
  listing (str "R 2 500 000 3 Bed Townhouse in secure estate") [].

Definition record_townhouse : property_data :=
  Eval vm_compute in
    record_of (@_extract_property_data_enhanced Latin1.db tag_townhouse true).

(** A studio: 0 bedrooms. *)
Definition tag_studio : Tag :=
  listing (str "R 950 000 0 Bed studio flat in Gardens area") [].

Definition record_studio : property_data :=
  Eval vm_compute in
    record_of (@_extract_property_data_enhanced Latin1.db tag_studio true).

(** The price of the scenario text with no-break spaces (code point 160)
    between the groups of digits. *)
Definition price_nbsp : pystr := str "1" ++ [160] ++ str "250" ++ [160] ++ str "000".

Definition tag_nbsp : Tag :=
  listing (str "R " ++ price_nbsp ++ str " 2 Bed 1 Bath 85m" ++ [178]
             ++ str " Pool Security") [].

Definition record_nbsp : property_data :=
  Eval vm_compute in
    record_of (@_extract_property_data_enhanced Latin1.db tag_nbsp true).

(** One image tag with a protocol-relative lazy-load source and one
    element with a background image; no embedded JSON. *)
Definition tag_two_images : Tag :=
  {| e_name := str "div"; e_text := text_c9; e_raw_text := text_c9;
     e_anchors := [];
     e_imgs := [{| img_class := [str "lazy"];
                   img_data_src := Some (str "//images.prop24.com/listing/1.jpg");
                   img_src := Some (str "/placeholder.gif") |}];
     e_styles := [str "background-image: url(/img/property/2.jpg)"];
     e_json_scripts := []; e_parent := None |}.

(** A link inside a short wrapper inside a listing block of more than 50
    characters. *)
Definition block_long : Tag :=
  listing (text_c9 ++ str " Balcony and a garden") [str "/for-sale/sea-point/1"].

Definition wrapper_short : Tag :=
  {| e_name := str "span"; e_text := str "View"; e_raw_text := str "View";
     e_anchors := [str "/for-sale/sea-point/1"]; e_imgs := []; e_styles := [];
     e_json_scripts := []; e_parent := Some block_long |}.

Definition link_in_block : Tag :=
  {| e_name := str "a"; e_text := str "View"; e_raw_text := str "View";
     e_anchors := []; e_imgs := []; e_styles := [];
     e_json_scripts := []; e_parent := Some wrapper_short |}.

End MoreExamples.

(** * Properties *)

(** ** The matcher *)
Module ReFacts.
Import Re.

Section Facts.
Context {U : Unicode}.

(** A pattern without group hands the capture it was given to its
    continuation, and every result is the continuation's. *)
Lemma iterate_grp_free {A} (body : pystr -> option pystr ->
      (pystr -> option pystr -> option A) -> option A) lo hi k :
  (forall s cap k' a, body s cap k' = Some a -> exists s1, k' s1 cap = Some a) ->
  forall fuel n s cap a,
    iterate body lo hi k fuel n s cap = Some a -> exists s1, k s1 cap = Some a.
Proof.
  intros Hbody fuel. induction fuel as [|fuel IH]; intros n s cap a; simpl.
  - destruct (lo <=? n)%nat; [eauto | discriminate].
  - destruct (below n hi).
    + destruct (body s cap _) as [b|] eqn:Hb.
      * intros [= ->]. apply Hbody in Hb as [s1 Hs1].
        destruct (length s1 <? length s)%nat; [eauto | discriminate].
      * destruct (lo <=? n)%nat; [eauto | discriminate].
    + destruct (lo <=? n)%nat; [eauto | discriminate].
Qed.

Lemma rmatch_grp_free {A} r :
  grp_free r = true ->
  forall s cap (k : pystr -> option pystr -> option A) a,
    rmatch r s cap k = Some a -> exists s1, k s1 cap = Some a.
Proof.
  induction r as [|neg items|r1 IH1 r2 IH2|r1 IH1 r2 IH2|lo hi r1 IH1|r1 IH1];
    simpl; intros Hfree s cap k a H.
  - eauto.
  - destruct s as [|c s']; [discriminate|].
    destruct (set_matches neg items c); [eauto | discriminate].
  - apply andb_prop in Hfree as [H1 H2].
    apply (IH1 H1) in H as [s1 Hs1]. eapply IH2; eauto.
  - apply andb_prop in Hfree as [H1 H2].
    destruct (rmatch r1 s cap k) eqn:E.
    + injection H as ->. eapply IH1; eauto.
    + eapply IH2; eauto.
  - eapply iterate_grp_free; [|exact H]. intros; eapply IH1; eauto.
  - discriminate.
Qed.

(** A repetition of a one-character set consumes characters of the set,
    at least [lo] of them. *)
Lemma iterate_set {A} neg items lo hi (k : pystr -> option pystr -> option A) :
  forall fuel n s cap a,
    iterate (rmatch (Set_ neg items)) lo hi k fuel n s cap = Some a ->
    exists pre s1, s = pre ++ s1
      /\ Forall (fun c => set_matches neg items c = true) pre
      /\ (lo <= n + length pre)%nat
      /\ k s1 cap = Some a.
Proof.
  assert (Hstop : forall n s cap a,
    (if (lo <=? n)%nat then k s cap else None) = Some a ->
    exists pre s1, s = pre ++ s1
      /\ Forall (fun c => set_matches neg items c = true) pre
      /\ (lo <= n + length pre)%nat /\ k s1 cap = Some a).
  { intros n s cap a H. destruct (lo <=? n)%nat eqn:E; [|discriminate].
    apply Nat.leb_le in E. exists [], s. simpl. repeat split; auto; lia. }
  intros fuel. induction fuel as [|fuel IH]; intros n s cap a; simpl.
  - apply Hstop.
  - destruct (below n hi); [|apply Hstop].
    destruct s as [|c s']; [apply Hstop|].
    destruct (set_matches neg items c) eqn:Hc; [|apply Hstop].
    destruct (length s' <? length (c :: s'))%nat; [|apply Hstop].
    destruct (iterate _ lo hi k fuel (S n) s' cap) as [b|] eqn:E; [|apply Hstop].
    intros [= ->]. apply IH in E as (pre & s1 & -> & Hpre & Hlo & Hk).
    exists (c :: pre), s1. simpl. repeat split; auto. lia.
Qed.

(** The defining equations of [rmatch]. *)
Lemma rmatch_Cat {A} r1 r2 s cap (k : pystr -> option pystr -> option A) :
  rmatch (Cat r1 r2) s cap k
  = rmatch r1 s cap (fun s1 cap1 => rmatch r2 s1 cap1 k).
Proof. reflexivity. Qed.

Lemma rmatch_Grp {A} r1 s cap (k : pystr -> option pystr -> option A) :
  rmatch (Grp r1) s cap k
  = rmatch r1 s cap (fun s1 _ => k s1 (Some (firstn (length s - length s1) s))).
Proof. reflexivity. Qed.

Lemma rmatch_Rep {A} lo hi r1 s cap (k : pystr -> option pystr -> option A) :
  rmatch (Rep lo hi r1) s cap k
  = iterate (rmatch r1) lo hi k (length s) O s cap.
Proof. reflexivity. Qed.

(** [search] answers with the result of a match at some suffix. *)
Lemma search_inv r s g :
  search r s = Some g ->
  exists s0, rmatch r s0 None (fun _ cap => Some cap) = Some g.
Proof.
  induction s as [|c s IH]; simpl.
  - destruct (rmatch r [] None _) eqn:E; [|discriminate]. intros [= ->]. eauto.
  - destruct (rmatch r (c :: s) None _) eqn:E; [intros [= ->]; eauto | auto].
Qed.

(** Group 1 of a pattern that starts with [(\d{lo,hi})], [lo] positive,
    and has no other group: a non-empty string of decimal digits. *)
Lemma search_digits lo hi rest s g :
  (1 <= lo)%nat -> grp_free rest = true ->
  search (Cat (Grp (Rep lo hi d)) rest) s = Some g ->
  exists ds, g = Some ds /\ ds <> [] /\ Forall is_digit ds.
Proof.
  intros Hlo Hfree H. apply search_inv in H as [s0 H].
  rewrite rmatch_Cat, rmatch_Grp, rmatch_Rep in H. unfold d in H.
  apply iterate_set in H as (pre & s1 & -> & Hpre & Hn & Hk).
  apply (rmatch_grp_free _ Hfree) in Hk as [s2 [= <-]].
  rewrite length_app, Nat.add_sub, firstn_app, Nat.sub_diag, firstn_all.
  simpl. rewrite app_nil_r. exists pre. split; [reflexivity|]. split.
  - destruct pre; [simpl in Hn; lia | discriminate].
  - eapply Forall_impl; [exact Hpre|]. intros c Hc. unfold is_digit.
    unfold set_matches in Hc. simpl in Hc.
    destruct (decimal c); [eauto | discriminate].
Qed.

End Facts.
End ReFacts.

(** ** Independence of the database outside the text

    A match only consults the database on characters of the input. *)
Module ReAgree.
Import Re.

Section Agree.
Context (U V : Unicode).

Lemma agree_on_suffix s1 s :
  agree_on U V s -> s1 `suffix_of` s -> agree_on U V s1.
Proof.
  intros H [pre ->]. unfold agree_on in *.
  apply Forall_app in H as [_ H]. exact H.
Qed.

Lemma set_matches_agree neg items c :
  @isspace U c = @isspace V c -> @decimal U c = @decimal V c ->
  @set_matches U neg items c = @set_matches V neg items c.
Proof.
  intros Hs Hd. unfold set_matches. f_equal.
  induction items as [|i items IH]; simpl; [reflexivity|].
  rewrite IH. f_equal. destruct i; simpl; [reflexivity | | exact Hs].
  rewrite Hd. reflexivity.
Qed.

Lemma iterate_agree {A}
    (b1 b2 : pystr -> option pystr ->
             (pystr -> option pystr -> option A) -> option A) lo hi :
  (forall s cap k1 k2, agree_on U V s ->
     (forall s1 cap1, s1 `suffix_of` s -> k1 s1 cap1 = k2 s1 cap1) ->
     b1 s cap k1 = b2 s cap k2) ->
  forall fuel n s cap k1 k2, agree_on U V s ->
    (forall s1 cap1, s1 `suffix_of` s -> k1 s1 cap1 = k2 s1 cap1) ->
    iterate b1 lo hi k1 fuel n s cap = iterate b2 lo hi k2 fuel n s cap.
Proof.
  intros Hb fuel. induction fuel as [|fuel IH]; intros n s cap k1 k2 Hs Hk; simpl.
  - rewrite Hk by reflexivity. reflexivity.
  - rewrite (Hk s cap) by reflexivity.
    destruct (below n hi); [|reflexivity].
    erewrite Hb; [reflexivity | exact Hs |].
    intros s1 cap1 Hsuf. simpl.
    destruct (length s1 <? length s)%nat; [|reflexivity].
    apply IH; [eapply agree_on_suffix; eauto|].
    intros s2 cap2 Hsuf2. apply Hk. etrans; eauto.
Qed.

Lemma rmatch_agree {A} r :
  forall s cap (k1 k2 : pystr -> option pystr -> option A),
    agree_on U V s ->
    (forall s1 cap1, s1 `suffix_of` s -> k1 s1 cap1 = k2 s1 cap1) ->
    @rmatch U A r s cap k1 = @rmatch V A r s cap k2.
Proof.
  induction r as [|neg items|r1 IH1 r2 IH2|r1 IH1 r2 IH2|lo hi r1 IH1|r1 IH1];
    intros s cap k1 k2 Hs Hk; simpl.
  - apply Hk. reflexivity.
  - destruct s as [|c s']; [reflexivity|].
    pose proof (Forall_inv Hs) as [Hsp Hd].
    rewrite (set_matches_agree _ _ _ Hsp Hd).
    destruct (set_matches neg items c); [|reflexivity].
    apply Hk. apply suffix_cons_r. reflexivity.
  - apply IH1; [exact Hs|]. intros s1 cap1 Hsuf.
    apply IH2; [eapply agree_on_suffix; eauto|].
    intros s2 cap2 Hsuf2. apply Hk. etrans; eauto.
  - rewrite (IH1 s cap k1 k2 Hs Hk), (IH2 s cap k1 k2 Hs Hk). reflexivity.
  - apply iterate_agree; auto.
  - apply IH1; [exact Hs|]. intros s1 cap1 Hsuf. apply Hk. exact Hsuf.
Qed.

Lemma search_agree r s :
  agree_on U V s -> @search U r s = @search V r s.
Proof.
  induction s as [|c s IH]; intros Hs; simpl.
  - rewrite (rmatch_agree r [] None _ (fun _ cap => Some cap) Hs); auto.
  - rewrite (rmatch_agree r (c :: s) None _ (fun _ cap => Some cap) Hs); auto.
    rewrite IH; [reflexivity|]. eapply agree_on_suffix; [exact Hs|].
    apply suffix_cons_r. reflexivity.
Qed.

Lemma matches_agree r s :
  agree_on U V s -> @matches U r s = @matches V r s.
Proof. intros Hs. unfold matches. rewrite (search_agree r s Hs). reflexivity. Qed.

Lemma digits_value_agree s :
  agree_on U V s -> forall acc, @digits_value U s acc = @digits_value V s acc.
Proof.
  induction s as [|c s IH]; intros Hs acc; simpl; [reflexivity|].
  pose proof (Forall_inv Hs) as [_ Hd]. rewrite Hd.
  destruct (@decimal V c); [|reflexivity].
  apply IH. eapply Forall_inv_tail. exact Hs.
Qed.

End Agree.

Lemma compatible_agree (U : Unicode) s :
  latin1_compatible U -> forallb (fun c => c <? 256) s = true ->
  agree_on U Latin1.db s.
Proof.
  intros [Hc _] Hs. unfold agree_on. apply Forall_forall. intros c Hin.
  rewrite forallb_forall in Hs. apply Hc. apply N.ltb_lt. apply Hs.
  apply list_elem_of_In. exact Hin.
Qed.

Lemma compatible_lower (U : Unicode) s :
  latin1_compatible U -> forallb (fun c => c <? 256) s = true ->
  @lower U s = Latin1.lower_str s.
Proof.
  intros [_ Hl] Hs. apply Hl. apply Forall_forall. intros c Hin.
  rewrite forallb_forall in Hs. apply N.ltb_lt. apply Hs.
  apply list_elem_of_In. exact Hin.
Qed.

End ReAgree.

(** ** The field extractor *)
Module ExtractorFacts.
Import PyStr Scraper ReFacts.

Section Facts.
Context {U : Unicode}.

Lemma digits_value_total ds :
  Forall Re.is_digit ds -> forall acc, exists n, digits_value ds acc = Some n.
Proof.
  induction 1 as [|c ds [v Hv] _ IH]; intros acc; simpl; [eauto|].
  rewrite Hv. apply IH.
Qed.

(** [int] does not fail on what [(\d+)] captured. *)
Lemma int_group_total lo hi rest text :
  (1 <= lo)%nat -> Re.grp_free rest = true ->
  exists v,
    int_group (Re.search (Re.Cat (Re.Grp (Re.Rep lo hi Re.d)) rest) text) = Ok v.
Proof.
  intros Hlo Hfree.
  destruct (Re.search _ text) as [g|] eqn:E; [|simpl; eauto].
  apply search_digits in E as (ds & -> & Hne & Hds); [|assumption..].
  destruct (digits_value_total ds Hds 0) as [n Hn].
  unfold int_group, py_int. destruct ds as [|c ds]; [congruence|].
  rewrite Hn. simpl. eauto.
Qed.

Lemma bedrooms_total text : exists v, int_group (Re.search bed_re text) = Ok v.
Proof. apply int_group_total; [lia | reflexivity]. Qed.

Lemma bathrooms_total text : exists v, int_group (Re.search bath_re text) = Ok v.
Proof. apply int_group_total; [lia | reflexivity]. Qed.

Lemma size_total text : exists v, int_group (Re.search size_re text) = Ok v.
Proof. apply int_group_total; [lia | reflexivity]. Qed.

Lemma gate_false text :
  in_gate text -> (length text <? 30)%nat || (2000 <? length text)%nat = false.
Proof.
  intros [H1 H2]. apply orb_false_intro; apply Nat.ltb_ge; lia.
Qed.

Lemma gate_true text :
  ~ in_gate text -> (length text <? 30)%nat || (2000 <? length text)%nat = true.
Proof.
  intros H. destruct (length text <? 30)%nat eqn:E1; [reflexivity|].
  destruct (2000 <? length text)%nat eqn:E2; [reflexivity|].
  exfalso. apply H. apply Nat.ltb_ge in E1, E2. split; lia.
Qed.

(** The record of an accepted fragment, field by field. *)
Lemma extract_inv element extract_images r :
  _extract_property_data_enhanced element extract_images = Ok (Some r) ->
  in_gate (e_text element) /\
  exists type0,
    price_step (e_text element) = Some (price r, type0)
    /\ int_group (Re.search bed_re (e_text element)) = Ok (bedrooms r)
    /\ int_group (Re.search bath_re (e_text element)) = Ok (bathrooms r)
    /\ int_group (Re.search size_re (e_text element)) = Ok (size_sqm r)
    /\ type r = property_type (lower (e_text element)) type0
    /\ url r = listing_url element
    /\ images r = (if extract_images then
                     match extract_property_images element with
                     | [] => None
                     | l => Some l
                     end
                   else None)
    /\ highlights r = match features (lower (e_text element)) with
                      | [] => None
                      | l => Some l
                      end
    /\ area r = None /\ selector_used r = None.
Proof.
  unfold _extract_property_data_enhanced.
  destruct (_ || _) eqn:Hgate; [discriminate|].
  destruct (price_step _) as [[p type0]|]; [|discriminate].
  destruct (int_group (Re.search bed_re _)) as [b|]; [|discriminate].
  destruct (int_group (Re.search bath_re _)) as [ba|]; [|discriminate].
  destruct (int_group (Re.search size_re _)) as [sz|]; [|discriminate].
  simpl. intros [= <-]. simpl. split.
  - apply orb_false_elim in Hgate as [H1 H2].
    apply Nat.ltb_ge in H1, H2. split; lia.
  - exists type0. repeat split; reflexivity.
Qed.

(** The [url] of a record is never the empty string. *)
Lemma extracted_url_present element extract_images r :
  _extract_property_data_enhanced element extract_images = Ok (Some r) ->
  present_url r = url r.
Proof.
  intros H. apply extract_inv in H
    as (_ & type0 & _ & _ & _ & _ & _ & Hurl & _).
  unfold present_url. rewrite Hurl. unfold listing_url.
  destruct (e_anchors element) as [|href rest]; [reflexivity|].
  destruct (contains _ href) eqn:Hc; [|reflexivity].
  destruct href as [|c href]; [discriminate|].
  destruct (startswith _ _); reflexivity.
Qed.

(** No exception leaves the extractor. *)
Lemma extract_total element extract_images :
  exists r, _extract_property_data_enhanced element extract_images = Ok r.
Proof.
  unfold _extract_property_data_enhanced.
  destruct (_ || _); [eauto|].
  destruct (price_step _) as [[p type0]|]; [|eauto].
  destruct (bedrooms_total (e_text element)) as [b ->].
  destruct (bathrooms_total (e_text element)) as [ba ->].
  destruct (size_total (e_text element)) as [sz ->].
  simpl. eauto.
Qed.

(** A fragment inside the length gate that passes the price step is
    accepted. *)
Lemma extract_accepts element extract_images p type0 :
  in_gate (e_text element) ->
  price_step (e_text element) = Some (p, type0) ->
  exists r, _extract_property_data_enhanced element extract_images = Ok (Some r).
Proof.
  intros Hgate Hp. unfold _extract_property_data_enhanced.
  rewrite (gate_false _ Hgate), Hp.
  destruct (bedrooms_total (e_text element)) as [b ->].
  destruct (bathrooms_total (e_text element)) as [ba ->].
  destruct (size_total (e_text element)) as [sz ->].
  simpl. eauto.
Qed.

End Facts.
End ExtractorFacts.

(** ** The image resolver *)
Module ImageFacts.
Import PyStr Scraper.

Section Facts.
Context {U : Unicode}.

(** The loop that removes duplicates: [unique_images] grows by the values
    of [images] whose key was not seen, each at its first occurrence. *)
Lemma remove_duplicates_spec images :
  forall seen unique out,
    remove_duplicates images seen unique = Ok out ->
    (forall k, k ∈ seen <-> Some k ∈ hash_key <$> unique) ->
    NoDup (hash_key <$> unique) ->
    exists added,
      out = unique ++ added
      /\ NoDup (hash_key <$> out)
      /\ added `sublist_of` images
      /\ (forall v, v ∈ added ->
            exists pre post, images = pre ++ v :: post
              /\ Forall (fun w => hash_key w <> hash_key v) pre)
      /\ (forall v, v ∈ images -> hash_key v ∈ hash_key <$> out).
Proof.
  induction images as [|img rest IH]; intros seen unique out; simpl.
  - intros [= <-] Hseen Hnd. exists []. rewrite app_nil_r.
    repeat split; auto.
    + intros v Hv. apply elem_of_nil in Hv as [].
    + intros v Hv. apply elem_of_nil in Hv as [].
  - destruct (hash_key img) as [k|] eqn:Hk; [|discriminate].
    destruct (decide (k ∈ seen)) as [Hin|Hnin]; intros Hout Hseen Hnd.
    + destruct (IH _ _ _ Hout Hseen Hnd) as (added & -> & Hnd' & Hsub & Hfirst & Hall).
      exists added. repeat split; auto.
      * apply sublist_cons. exact Hsub.
      * intros v Hv. destruct (Hfirst v Hv) as (pre & post & -> & Hpre).
        exists (img :: pre), post. split; [reflexivity|].
        constructor; [|exact Hpre]. rewrite Hk. intros Heq.
        rewrite fmap_app in Hnd'. apply NoDup_app in Hnd' as (_ & Hdisj & _).
        apply (Hdisj (Some k)); [apply Hseen; exact Hin|].
        rewrite Heq. apply list_elem_of_fmap_2. exact Hv.
      * intros v [->|Hv]%elem_of_cons; [|auto].
        rewrite Hk, fmap_app. apply elem_of_app. left. apply Hseen. exact Hin.
    + assert (Hnew : Some k ∉ hash_key <$> unique) by (rewrite <- Hseen; exact Hnin).
      destruct (IH _ _ _ Hout) as (added & -> & Hnd' & Hsub & Hfirst & Hall).
      * intros k'. rewrite fmap_app, elem_of_app. simpl. rewrite Hk.
        rewrite list_elem_of_singleton, elem_of_union, elem_of_singleton, Hseen.
        split; intros [H|H]; auto; [right | left]; congruence.
      * rewrite fmap_app. apply NoDup_app. split; [exact Hnd|]. split.
        -- intros x Hx. simpl. rewrite Hk, list_elem_of_singleton.
           intros ->. auto.
        -- simpl. apply NoDup_singleton.
      * exists (img :: added). rewrite <- app_assoc in *. simpl in *.
        repeat split; auto.
        -- apply sublist_skip. exact Hsub.
        -- intros v [->|Hv]%elem_of_cons.
           ++ exists [], rest. split; [reflexivity | constructor].
           ++ destruct (Hfirst v Hv) as (pre & post & -> & Hpre).
              exists (img :: pre), post. split; [reflexivity|].
              constructor; [|exact Hpre]. intros Heq.
              rewrite fmap_app in Hnd'. apply NoDup_app in Hnd' as (_ & _ & Hnd').
              simpl in Hnd'. apply NoDup_cons in Hnd' as [Hni _]. apply Hni.
              rewrite Heq. apply list_elem_of_fmap_2. exact Hv.
        -- intros v [->|Hv]%elem_of_cons; [|auto].
           rewrite fmap_app. apply elem_of_app. right. simpl. left.
Qed.

(** The loop raises exactly when it meets a value that cannot be hashed. *)
Lemma remove_duplicates_raises images :
  forall seen unique,
    (exists x, remove_duplicates images seen unique = Raise x)
    <-> Exists (fun v => hash_key v = None) images.
Proof.
  induction images as [|img rest IH]; intros seen unique; simpl.
  - split; [intros [x Hx]; discriminate | intros H; inversion H].
  - destruct (hash_key img) as [k|] eqn:Hk.
    + rewrite Exists_cons. destruct (decide (k ∈ seen)); rewrite IH; split; auto;
        intros [H|H]; auto; congruence.
    + split; [intros _; left; exact Hk | eauto].
Qed.

Lemma unique_from_start images out :
  remove_duplicates images ∅ [] = Ok out ->
  NoDup (hash_key <$> out)
  /\ out `sublist_of` images
  /\ (forall v, v ∈ out ->
        exists pre post, images = pre ++ v :: post
          /\ Forall (fun w => hash_key w <> hash_key v) pre)
  /\ (forall v, v ∈ images -> hash_key v ∈ hash_key <$> out).
Proof.
  intros H. apply remove_duplicates_spec in H as (added & -> & H).
  - exact H.
  - intros k. simpl. rewrite elem_of_nil. set_solver.
  - simpl. apply NoDup_nil_2.
Qed.

(** What [extract_property_images] returns. *)
Lemma images_cases element :
  (exists x, extract_property_images_try element = Raise x
             /\ extract_property_images element = [])
  \/ (exists unique,
        remove_duplicates (gather_images element) ∅ [] = Ok unique
        /\ extract_property_images_try element = Ok (take 5 unique)
        /\ extract_property_images element = take 5 unique).
Proof.
  unfold extract_property_images, extract_property_images_try.
  destruct (remove_duplicates _ _ _) as [unique|x]; [right | left]; eauto.
Qed.

End Facts.
End ImageFacts.

(** ** The page assembler *)
Module AssemblerFacts.
Import PyStr Scraper ExtractorFacts.

Section Facts.
Context {U : Unicode}.

Lemma dedup_key_stamp area selector prop :
  dedup_key (stamp area selector prop) = dedup_key prop.
Proof. reflexivity. Qed.

Lemma visit_keep area selector extract_images acc element :
  visit area selector extract_images acc element
  = Ok (fold_left (keep area)
          (List.map (pair selector) (fragment extract_images element)) acc).
Proof.
  unfold visit, fragment. destruct (container_of element) as [container|];
    [|reflexivity].
  destruct (extract_total container extract_images) as [[prop|] ->];
    [|reflexivity].
  simpl. unfold keep. simpl. destruct (decide _); reflexivity.
Qed.

Lemma for_each_visit area selector extract_images elements :
  forall acc,
    for_each (visit area selector extract_images) elements acc
    = Ok (fold_left (keep area)
            (List.map (pair selector)
               (flat_map (fragment extract_images) elements)) acc).
Proof.
  induction elements as [|element rest IH]; intros acc; simpl; [reflexivity|].
  rewrite visit_keep. simpl. rewrite IH, map_app, fold_left_app. reflexivity.
Qed.

Lemma for_each_selector soup area extract_images sels :
  forall acc,
    for_each (fun acc selector =>
                for_each (visit area selector extract_images)
                         (select soup selector) acc) sels acc
    = Ok (fold_left (keep area)
            (flat_map (fun selector =>
                         List.map (pair selector)
                           (flat_map (fragment extract_images)
                              (select soup selector))) sels) acc).
Proof.
  induction sels as [|selector rest IH]; intros acc; simpl; [reflexivity|].
  rewrite for_each_visit. simpl. rewrite IH, fold_left_app. reflexivity.
Qed.

(** The page assembler never raises: it keeps, of the discovered records,
    those whose key is new. *)
Lemma assemble_keep soup area extract_images :
  _extract_all_properties_from_page soup area extract_images
  = Ok (fold_left (keep area) (discovered soup extract_images) ([], ∅)).1.
Proof.
  unfold _extract_all_properties_from_page, discovered.
  rewrite for_each_selector. reflexivity.
Qed.

Lemma keep_spec area l :
  forall acc : page_state,
    (forall k, k ∈ acc.2 <-> k ∈ dedup_key <$> acc.1) ->
    NoDup (dedup_key <$> acc.1) ->
    exists added,
      (fold_left (keep area) l acc).1 = acc.1 ++ added
      /\ NoDup (dedup_key <$> (fold_left (keep area) l acc).1)
      /\ added `sublist_of` (fun c => stamp area c.1 c.2) <$> l
      /\ (forall r, r ∈ added ->
            exists pre selector prop post,
              l = pre ++ (selector, prop) :: post
              /\ r = stamp area selector prop
              /\ Forall (fun c => dedup_key c.2 <> dedup_key prop) pre)
      /\ (forall c, c ∈ l ->
            dedup_key c.2 ∈ dedup_key <$> (fold_left (keep area) l acc).1).
Proof.
  induction l as [|[selector prop] rest IH]; intros [props seen] Hseen Hnd; simpl in *.
  - exists []. rewrite app_nil_r. repeat split; auto.
    + intros r Hr. apply elem_of_nil in Hr as [].
    + intros c Hc. apply elem_of_nil in Hc as [].
  - unfold keep at 2 4 6. simpl.
    destruct (decide (dedup_key prop ∈ seen)) as [Hin|Hnin].
    + destruct (IH (props, seen) Hseen Hnd)
        as (added & Heq & Hnd' & Hsub & Hfirst & Hall). simpl in *.
      exists added. repeat split; auto.
      * apply sublist_cons. exact Hsub.
      * intros r Hr. destruct (Hfirst r Hr) as (pre & sel & p & post & -> & -> & Hpre).
        exists ((selector, prop) :: pre), sel, p, post.
        repeat split; auto. constructor; [|exact Hpre]. simpl. intros Heq'.
        rewrite Heq, fmap_app in Hnd'. apply NoDup_app in Hnd' as (_ & Hdisj & _).
        apply (Hdisj (dedup_key prop)); [apply Hseen; exact Hin|].
        rewrite Heq'. apply (list_elem_of_fmap_2' _ _ _ _ Hr). reflexivity.
      * intros c [->|Hc]%elem_of_cons; [|auto]. simpl.
        rewrite Heq, fmap_app. apply elem_of_app. left. apply Hseen. exact Hin.
    + assert (Hnew : dedup_key prop ∉ dedup_key <$> props)
        by (rewrite <- Hseen; exact Hnin).
      destruct (IH (props ++ [stamp area selector prop], {[dedup_key prop]} ∪ seen))
        as (added & Heq & Hnd' & Hsub & Hfirst & Hall); simpl in *.
      * intros k. rewrite fmap_app, elem_of_app. simpl.
        rewrite list_elem_of_singleton, elem_of_union, elem_of_singleton, Hseen.
        split; intros [H|H]; auto.
      * rewrite fmap_app. apply NoDup_app. split; [exact Hnd|]. split.
        -- intros x Hx. simpl. rewrite list_elem_of_singleton. intros ->. auto.
        -- simpl. apply NoDup_singleton.
      * exists (stamp area selector prop :: added).
        rewrite <- app_assoc in Heq. simpl in Heq.
        repeat split; auto.
        -- apply sublist_skip. exact Hsub.
        -- intros r [->|Hr]%elem_of_cons.
           ++ exists [], selector, prop, rest. repeat split; auto.
           ++ destruct (Hfirst r Hr) as (pre & sel & p & post & -> & -> & Hpre).
              exists ((selector, prop) :: pre), sel, p, post.
              repeat split; auto. constructor; [|exact Hpre]. simpl. intros Heq'.
              rewrite Heq, fmap_app in Hnd'.
              apply NoDup_app in Hnd' as (_ & _ & Hnd'). simpl in Hnd'.
              apply NoDup_cons in Hnd' as [Hni _]. apply Hni.
              rewrite dedup_key_stamp, Heq'.
              apply (list_elem_of_fmap_2' _ _ _ _ Hr). reflexivity.
        -- intros c [->|Hc]%elem_of_cons; [|auto]. simpl.
           rewrite Heq, fmap_app. apply elem_of_app. right. simpl. left.
Qed.

(** The records of a page, against the discovered ones. *)
Lemma assemble_spec soup area extract_images :
  exists out,
    _extract_all_properties_from_page soup area extract_images = Ok out
    /\ NoDup (dedup_key <$> out)
    /\ out `sublist_of`
         (fun c => stamp area c.1 c.2) <$> discovered soup extract_images
    /\ (forall r, r ∈ out ->
          exists pre selector prop post,
            discovered soup extract_images = pre ++ (selector, prop) :: post
            /\ r = stamp area selector prop
            /\ Forall (fun c => dedup_key c.2 <> dedup_key prop) pre)
    /\ (forall c, c ∈ discovered soup extract_images ->
          dedup_key c.2 ∈ dedup_key <$> out).
Proof.
  rewrite assemble_keep. eexists. split; [reflexivity|].
  destruct (keep_spec area (discovered soup extract_images) ([], ∅))
    as (added & Heq & Hnd & Hsub & Hfirst & Hall); simpl.
  - intros k. rewrite elem_of_nil. set_solver.
  - apply NoDup_nil_2.
  - simpl in Heq. rewrite Heq in *. repeat split; auto.
Qed.

(** Every discovered record is a record of the field extractor. *)
Lemma discovered_extracted soup extract_images selector prop :
  (selector, prop) ∈ discovered soup extract_images ->
  exists container,
    _extract_property_data_enhanced container extract_images = Ok (Some prop).
Proof.
  unfold discovered. rewrite list_elem_of_In, in_flat_map.
  intros (sel & _ & Hin). apply in_map_iff in Hin as (prop' & [= _ ->] & Hin).
  apply in_flat_map in Hin as (element & _ & Hin). unfold fragment in Hin.
  destruct (container_of element) as [container|]; [|destruct Hin].
  exists container.
  destruct (_extract_property_data_enhanced container extract_images)
    as [[prop'|]|]; [|destruct Hin..].
  destruct Hin as [->|[]]. reflexivity.
Qed.

Lemma assembled_url_present soup area extract_images out r :
  _extract_all_properties_from_page soup area extract_images = Ok out ->
  r ∈ out -> present_url r = url r.
Proof.
  intros Hout Hr.
  destruct (assemble_spec soup area extract_images)
    as (out' & Hout' & _ & _ & Hfirst & _).
  rewrite Hout in Hout'. injection Hout' as <-.
  destruct (Hfirst r Hr) as (pre & selector & prop & post & Hd & -> & _).
  assert (Hin : (selector, prop) ∈ discovered soup extract_images).
  { rewrite Hd. apply elem_of_app. right. left. }
  apply discovered_extracted in Hin as [container Hc].
  apply extracted_url_present in Hc. exact Hc.
Qed.

End Facts.
End AssemblerFacts.

(** ** The pagination controller *)
Module ControllerFacts.
Import PyStr Scraper AssemblerFacts.

Lemma present_urls_snoc props prop :
  present_urls (props ++ [prop])
  = present_urls props ++ match present_url prop with
                          | Some u => [u]
                          | None => []
                          end.
Proof.
  unfold present_urls. rewrite omap_app. simpl.
  destruct (present_url prop); reflexivity.
Qed.

(** The three ways of the filter's [if]/[elif]. *)
Lemma filter_step_cases acc prop :
  match present_url prop with
  | Some u =>
      if decide (u ∈ acc.2) then filter_step acc prop = acc
      else filter_step acc prop = (acc.1 ++ [prop], {[u]} ∪ acc.2)
  | None => filter_step acc prop = (acc.1 ++ [prop], acc.2)
  end.
Proof.
  unfold filter_step, present_url. destruct (url prop) as [u|]; simpl; [|reflexivity].
  destruct (truthy u); simpl; [|reflexivity].
  destruct (decide (u ∈ acc.2)) as [Hin|Hnin].
  - rewrite bool_decide_eq_true_2 by exact Hin. reflexivity.
  - rewrite bool_decide_eq_false_2 by exact Hnin. reflexivity.
Qed.

Lemma filter_spec (page_properties : list property_data)
    (seen0 : gset pystr) :
  forall acc : list property_data * gset pystr,
    (forall u, u ∈ acc.2 <-> u ∈ seen0 \/ u ∈ present_urls acc.1) ->
    NoDup (present_urls acc.1) ->
    (forall u, u ∈ present_urls acc.1 -> u ∉ seen0) ->
    exists added,
      (fold_left filter_step page_properties acc).1 = acc.1 ++ added
      /\ added `sublist_of` page_properties
      /\ (forall u, u ∈ (fold_left filter_step page_properties acc).2
                    <-> u ∈ seen0 \/ u ∈ present_urls (acc.1 ++ added))
      /\ NoDup (present_urls (acc.1 ++ added))
      /\ (forall u, u ∈ present_urls (acc.1 ++ added) -> u ∉ seen0)
      /\ (forall p, p ∈ page_properties -> present_url p = None -> p ∈ added).
Proof.
  induction page_properties as [|prop rest IH]; intros [new seen] Hseen Hnd Hfresh;
    simpl in *.
  - exists []. rewrite app_nil_r. repeat split; auto; try apply Hseen.
  - pose proof (filter_step_cases (new, seen) prop) as Hcase. simpl in Hcase.
    destruct (present_url prop) as [u|] eqn:Hu.
    + destruct (decide (u ∈ seen)) as [Hin|Hnin]; rewrite Hcase.
      * destruct (IH (new, seen) Hseen Hnd Hfresh)
          as (added & Heq & Hsub & Hseen' & Hnd' & Hfresh' & Hless).
        exists added. repeat split; auto; try apply Hseen'.
        -- apply sublist_cons. exact Hsub.
        -- intros p [->|Hp]%elem_of_cons; [congruence | auto].
      * destruct (IH (new ++ [prop], {[u]} ∪ seen))
          as (added & Heq & Hsub & Hseen' & Hnd' & Hfresh' & Hless); simpl.
        -- intros u'. rewrite present_urls_snoc, Hu, elem_of_app,
             list_elem_of_singleton, elem_of_union, elem_of_singleton, Hseen.
           tauto.
        -- rewrite present_urls_snoc, Hu. apply NoDup_app.
           split; [exact Hnd|]. split; [|apply NoDup_singleton].
           intros x Hx ->%list_elem_of_singleton. apply Hnin, Hseen. auto.
        -- intros u'. rewrite present_urls_snoc, Hu, elem_of_app,
             list_elem_of_singleton. intros [H| ->]; [auto|].
           intros Hin. apply Hnin, Hseen. auto.
        -- simpl in *. rewrite <- app_assoc in *. simpl in *.
           exists (prop :: added). repeat split; auto; try apply Hseen'.
           ++ apply sublist_skip. exact Hsub.
           ++ intros p [->|Hp]%elem_of_cons; [left | right; auto].
    + rewrite Hcase.
      destruct (IH (new ++ [prop], seen))
        as (added & Heq & Hsub & Hseen' & Hnd' & Hfresh' & Hless); simpl.
      * intros u'. rewrite present_urls_snoc, Hu, app_nil_r. apply Hseen.
      * rewrite present_urls_snoc, Hu, app_nil_r. exact Hnd.
      * intros u'. rewrite present_urls_snoc, Hu, app_nil_r. apply Hfresh.
      * simpl in *. rewrite <- app_assoc in *. simpl in *.
        exists (prop :: added). repeat split; auto; try apply Hseen'.
        -- apply sublist_skip. exact Hsub.
        -- intros p [->|Hp]%elem_of_cons; [left | right; auto].
Qed.

(** The filter of one page, started on the URLs seen so far. *)
Lemma filter_duplicates_spec (page_properties : list property_data)
    (seen : gset pystr) :
  let new := (filter_duplicates page_properties seen).1 in
  new `sublist_of` page_properties
  /\ NoDup (present_urls new)
  /\ (forall u, u ∈ present_urls new -> u ∉ seen)
  /\ (forall u, u ∈ (filter_duplicates page_properties seen).2
                <-> u ∈ seen \/ u ∈ present_urls new)
  /\ (forall p, p ∈ page_properties -> present_url p = None -> p ∈ new).
Proof.
  unfold filter_duplicates.
  destruct (filter_spec page_properties seen ([], seen))
    as (added & Heq & Hsub & Hseen & Hnd & Hfresh & Hless); simpl.
  - intros u. rewrite elem_of_nil. tauto.
  - apply NoDup_nil_2.
  - intros u Hu. apply elem_of_nil in Hu as [].
  - simpl in *. rewrite Heq. repeat split; auto; apply Hseen.
Qed.

Lemma initial_consistent : consistent initial.
Proof.
  split; simpl; [apply NoDup_nil_2|]. intros u. rewrite elem_of_nil. set_solver.
Qed.

Lemma without_url_app (l k : list property_data) :
  without_url (l ++ k) = without_url l ++ without_url k.
Proof. unfold without_url. apply filter_app. Qed.

Lemma without_url_concat (ls : list (list property_data)) :
  without_url (concat ls) = concat (without_url <$> ls).
Proof.
  induction ls as [|l ls IH]; [reflexivity|].
  simpl. rewrite without_url_app, IH. reflexivity.
Qed.

Lemma without_url_cons (prop : property_data) (l : list property_data) :
  without_url (prop :: l)
  = match present_url prop with
    | Some _ => without_url l
    | None => prop :: without_url l
    end.
Proof.
  unfold without_url. destruct (present_url prop) as [u|] eqn:Hu.
  - apply filter_cons_False. congruence.
  - apply filter_cons_True. exact Hu.
Qed.

(** The filter keeps the records without URL, all of them and in order. *)
Lemma filter_without_url (page_properties : list property_data) :
  forall acc : list property_data * gset pystr,
    without_url (fold_left filter_step page_properties acc).1
    = without_url acc.1 ++ without_url page_properties.
Proof.
  induction page_properties as [|prop rest IH]; intros [new seen]; simpl.
  - rewrite app_nil_r. reflexivity.
  - pose proof (filter_step_cases (new, seen) prop) as Hcase. simpl in Hcase.
    rewrite (without_url_cons prop rest).
    destruct (present_url prop) as [u|] eqn:Hu.
    + destruct (decide (u ∈ seen)); rewrite Hcase, IH; simpl; [reflexivity|].
      rewrite without_url_app, (without_url_cons prop []), Hu, app_nil_r.
      reflexivity.
    + rewrite Hcase, IH. simpl.
      rewrite without_url_app, (without_url_cons prop []), Hu, <- app_assoc.
      reflexivity.
Qed.

(** The filter forgets no URL: the URLs seen before stay, and every URL
    of the page is seen afterwards. *)
Lemma filter_seen (page_properties : list property_data) :
  forall acc : list property_data * gset pystr,
    (forall u, u ∈ acc.2 -> u ∈ (fold_left filter_step page_properties acc).2)
    /\ (forall prop u, prop ∈ page_properties -> present_url prop = Some u ->
          u ∈ (fold_left filter_step page_properties acc).2).
Proof.
  induction page_properties as [|prop rest IH]; intros [new seen]; simpl.
  - split; [auto|]. intros prop u Hin. apply elem_of_nil in Hin as [].
  - pose proof (filter_step_cases (new, seen) prop) as Hcase. simpl in Hcase.
    destruct (IH (filter_step (new, seen) prop)) as [Hmono Hall].
    assert (Hstep : forall u, u ∈ seen -> u ∈ (filter_step (new, seen) prop).2).
    { intros u Hu. destruct (present_url prop) as [u'|].
      - destruct (decide (u' ∈ seen)); rewrite Hcase; simpl; [exact Hu|].
        apply elem_of_union. right. exact Hu.
      - rewrite Hcase. exact Hu. }
    split; [intros u Hu; apply Hmono, Hstep, Hu|].
    intros p u [->|Hin]%elem_of_cons Hp; [|eapply Hall; eauto].
    apply Hmono. rewrite Hp in Hcase.
    destruct (decide (u ∈ seen)) as [Hu|Hu]; rewrite Hcase; simpl; [exact Hu|].
    apply elem_of_union. left. apply elem_of_singleton. reflexivity.
Qed.

Section Run.
Context {U : Unicode}.
Variable session_get : pystr -> exc response.
Variables (area transaction_type : pystr).
Variable max_pages : option Z.
Variable extract_images : bool.

Local Abbreviation iteration :=
  (iteration session_get area transaction_type max_pages extract_images).
Local Abbreviation scrape_loop :=
  (scrape_loop session_get area transaction_type max_pages extract_images).
Local Abbreviation processed := (processed session_get area extract_images).

Lemma extend_nil (l new : list property_data) :
  match new with [] => l | _ => l ++ new end = l ++ new.
Proof. destruct new; [rewrite app_nil_r|]; reflexivity. Qed.

(** A turn that ends in [break] requests at most one page and accepts
    nothing. *)
Lemma iteration_break area_code st events :
  iteration area_code st = (Break, events) ->
  events = [] \/ exists u, events = [{| requested := u; accepted := None |}].
Proof.
  unfold Scraper.iteration.
  destruct (2 <=? _)%Z; [intros [= <-]; auto|].
  destruct (beyond_ceiling _ _); [intros [= <-]; auto|].
  destruct (session_get _) as [response|]; [|intros [= <-]; eauto].
  destruct (negb _); [intros [= <-]; eauto|].
  destruct (_extract_all_properties_from_page _ _ _) as [page_properties|];
    [|intros [= <-]; eauto].
  destruct (filter_duplicates _ _). discriminate.
Qed.

(** A turn that goes on: the page was fetched and assembled, its new
    records are appended and the counters updated. *)
Lemma iteration_next area_code st st' events :
  iteration area_code st = (Next st', events) ->
  (consecutive_empty_pages st < 2)%Z
  /\ beyond_ceiling max_pages (page st) = false
  /\ exists response page_properties,
      let url := page_url area transaction_type area_code (page st) in
      let new := (filter_duplicates page_properties (seen_urls st)).1 in
      session_get url = Ok response
      /\ status_code response = 200%Z
      /\ _extract_all_properties_from_page (page_soup response) area
           extract_images = Ok page_properties
      /\ events = [{| requested := url; accepted := Some new |}]
      /\ all_properties st' = all_properties st ++ new
      /\ seen_urls st' = (filter_duplicates page_properties (seen_urls st)).2
      /\ page st' = (page st + 1)%Z
      /\ consecutive_empty_pages st'
         = match new with
           | [] => (consecutive_empty_pages st + 1)%Z
           | _ => 0%Z
           end.
Proof.
  unfold Scraper.iteration.
  destruct (2 <=? _)%Z eqn:Hc; [discriminate|].
  destruct (beyond_ceiling _ _) eqn:Hb; [discriminate|].
  destruct (session_get _) as [response|] eqn:Hget; [|discriminate].
  destruct (negb _) eqn:Hst; [discriminate|].
  destruct (_extract_all_properties_from_page _ _ _) as [page_properties|] eqn:Hp;
    [|discriminate].
  destruct (filter_duplicates _ _) as [new seen] eqn:Hf.
  intros [= <- <-]. simpl. split; [apply Z.leb_gt; exact Hc|].
  split; [reflexivity|]. exists response, page_properties. rewrite Hf. simpl.
  apply negb_false_iff, Z.eqb_eq in Hst.
  repeat split; auto. apply extend_nil.
Qed.

Lemma iteration_consistent area_code st st' events :
  iteration area_code st = (Next st', events) ->
  consistent st -> consistent st'.
Proof.
  intros H [Hnd Hseen].
  apply iteration_next in H
    as (_ & _ & response & pp & _ & _ & _ & _ & Hall & Hs & _).
  destruct (filter_duplicates_spec pp (seen_urls st))
    as (_ & Hnd' & Hfresh & Hseen' & _).
  unfold consistent. rewrite Hall, Hs. unfold present_urls in *.
  rewrite omap_app. split.
  - apply NoDup_app. split; [exact Hnd|]. split; [|exact Hnd'].
    intros u Hu Hu'. apply (Hfresh u Hu'). apply Hseen. exact Hu.
  - intros u. rewrite Hseen', elem_of_app, Hseen. tauto.
Qed.

Lemma iteration_processed area_code st st' events :
  iteration area_code st = (Next st', events) ->
  exists ev new,
    events = [ev] /\ accepted ev = Some new /\ processed ev new
    /\ all_properties st' = all_properties st ++ new.
Proof.
  intros H.
  apply iteration_next in H
    as (_ & _ & response & pp & Hget & Hst & Hp & -> & Hall & _).
  destruct (filter_duplicates_spec pp (seen_urls st))
    as (Hsub & _ & _ & _ & Hless).
  eexists _, _. split; [reflexivity|]. split; [reflexivity|].
  split; [|exact Hall]. exists response, pp. simpl. auto.
Qed.

(** A run from a consistent state. *)
Lemma scrape_loop_spec area_code fuel :
  forall st result events,
    scrape_loop area_code fuel st = Some (result, events) ->
    consistent st ->
    result = all_properties st ++ concat (chunks events)
    /\ NoDup (present_urls result)
    /\ Forall (fun ev => forall new, accepted ev = Some new -> processed ev new)
         events.
Proof.
  induction fuel as [|fuel IH]; intros st result events; simpl; [discriminate|].
  destruct (iteration area_code st) as [[|st'] evs] eqn:Hit.
  - intros [= <- <-] [Hnd _].
    apply iteration_break in Hit as [->|[u ->]]; simpl;
      rewrite app_nil_r; repeat split; auto.
    constructor; [|constructor]. simpl. discriminate.
  - destruct (scrape_loop area_code fuel st') as [[r later]|] eqn:Hloop;
      [|discriminate].
    intros [= <- <-] Hcons.
    pose proof (iteration_consistent _ _ _ _ Hit Hcons) as Hcons'.
    destruct (IH _ _ _ Hloop Hcons') as (Hr & Hnd & Hev).
    destruct (iteration_processed _ _ _ _ Hit) as (ev & new & -> & Hacc & Hproc & Hall).
    split; [|split; [exact Hnd|]].
    + rewrite Hr, Hall. unfold chunks. simpl. rewrite Hacc. simpl.
      rewrite app_assoc. reflexivity.
    + simpl. constructor; [|exact Hev]. intros new' Hnew'.
      rewrite Hacc in Hnew'. injection Hnew' as <-. exact Hproc.
Qed.

Local Abbreviation page_records :=
  (page_records session_get area extract_images).

(** A page that was fetched and assembled is the page of its request. *)
Lemma page_records_fetched url response page_properties :
  session_get url = Ok response ->
  status_code response = 200%Z ->
  _extract_all_properties_from_page (page_soup response) area extract_images
  = Ok page_properties ->
  page_records url = page_properties.
Proof.
  intros Hget Hst Hp. unfold Scraper.page_records.
  rewrite Hget, Hst, Z.eqb_refl, Hp. reflexivity.
Qed.

(** Why a turn ends in [break]: two empty pages were counted, the page
    lies beyond the ceiling, or the request failed. *)
Lemma iteration_break_reason area_code st events :
  iteration area_code st = (Break, events) ->
  (events = []
   /\ ((2 <= consecutive_empty_pages st)%Z
       \/ beyond_ceiling max_pages (page st) = true))
  \/ (events = [{| requested :=
                      page_url area transaction_type area_code (page st);
                    accepted := None |}]
      /\ page_records (page_url area transaction_type area_code (page st))
         = []).
Proof.
  unfold Scraper.iteration.
  destruct (2 <=? _)%Z eqn:Hc.
  { intros [= <-]. left. split; [reflexivity|]. left. apply Z.leb_le. exact Hc. }
  destruct (beyond_ceiling _ _) eqn:Hb; [intros [= <-]; left; auto|].
  destruct (session_get _) as [response|x] eqn:Hget.
  2:{ intros [= <-]. right. split; [reflexivity|].
      unfold Scraper.page_records. rewrite Hget. reflexivity. }
  destruct (status_code response =? 200)%Z eqn:Hst; simpl.
  2:{ intros [= <-]. right. split; [reflexivity|].
      unfold Scraper.page_records. rewrite Hget, Hst. reflexivity. }
  destruct (_extract_all_properties_from_page _ _ _) as [page_properties|x]
    eqn:Hp.
  - destruct (filter_duplicates _ _). discriminate.
  - intros [= <-]. right. split; [reflexivity|].
    unfold Scraper.page_records. rewrite Hget, Hst, Hp. reflexivity.
Qed.

(** What a run keeps of every page it requests: the accepted records are
    records of the page in their order, among them all its records
    without URL, and every URL of the page is a URL of the result. *)
Lemma scrape_loop_kept area_code fuel :
  forall st result events,
    scrape_loop area_code fuel st = Some (result, events) ->
    consistent st ->
    Forall (fun ev =>
              match accepted ev with
              | Some new =>
                  new `sublist_of` page_records (requested ev)
                  /\ without_url new = without_url (page_records (requested ev))
                  /\ forall prop u, prop ∈ page_records (requested ev) ->
                       present_url prop = Some u -> u ∈ present_urls result
              | None => page_records (requested ev) = []
              end) events.
Proof.
  induction fuel as [|fuel IH]; intros st result events; simpl; [discriminate|].
  destruct (iteration area_code st) as [[|st'] evs] eqn:Hit.
  - intros [= <- <-] _.
    apply iteration_break_reason in Hit as [[-> _]|[-> Hu]]; [constructor|].
    constructor; [exact Hu | constructor].
  - destruct (scrape_loop area_code fuel st') as [[r later]|] eqn:Hloop;
      [|discriminate].
    intros [= <- <-] Hcons.
    pose proof (iteration_consistent _ _ _ _ Hit Hcons) as Hcons'.
    pose proof (IH _ _ _ Hloop Hcons') as Hlater.
    destruct (scrape_loop_spec _ _ _ _ _ Hloop Hcons') as (Hr & _ & _).
    apply iteration_next in Hit
      as (_ & _ & response & pp & Hget & Hst & Hp & -> & Hall & Hseen & _).
    simpl. constructor; [|exact Hlater]. simpl.
    rewrite (page_records_fetched _ _ _ Hget Hst Hp).
    destruct (filter_duplicates_spec pp (seen_urls st)) as (Hsub & _).
    split; [exact Hsub|]. split.
    + unfold filter_duplicates. rewrite filter_without_url. reflexivity.
    + intros prop u Hprop Hu. rewrite Hr. unfold present_urls.
      rewrite omap_app. apply elem_of_app. left.
      apply (proj2 Hcons'). rewrite Hseen.
      apply (proj2 (filter_seen pp ([], seen_urls st)) prop u Hprop Hu).
Qed.

(** The requests of the loop go to the pages [page st], [page st + 1], ...
    in this order. *)
Lemma scrape_loop_pages area_code fuel :
  forall st result events,
    scrape_loop area_code fuel st = Some (result, events) ->
    forall i ev, events !! i = Some ev ->
      requested ev
      = page_url area transaction_type area_code (page st + Z.of_nat i).
Proof.
  induction fuel as [|fuel IH]; intros st result events; simpl; [discriminate|].
  destruct (iteration area_code st) as [[|st'] evs] eqn:Hit.
  - intros [= <- <-] i ev Hi.
    apply iteration_break_reason in Hit as [[-> _]|[-> _]]; [discriminate|].
    destruct i; [|discriminate]. injection Hi as <-.
    rewrite Z.add_0_r. reflexivity.
  - destruct (scrape_loop area_code fuel st') as [[r later]|] eqn:Hloop;
      [|discriminate].
    intros [= <- <-] i ev Hi.
    apply iteration_next in Hit
      as (_ & _ & response & pp & _ & _ & _ & -> & _ & _ & Hpage & _).
    destruct i as [|i]; simpl in Hi.
    + injection Hi as <-. simpl. rewrite Z.add_0_r. reflexivity.
    + rewrite (IH _ _ _ Hloop i ev Hi), Hpage. f_equal. lia.
Qed.

(** Why the loop has ended, from a state with [page st] the next page and
    [consecutive_empty_pages st] empty pages counted. *)
Lemma scrape_loop_stops area_code fuel :
  forall st result events,
    scrape_loop area_code fuel st = Some (result, events) ->
    (exists ev, last events = Some ev /\ accepted ev = None)
    \/ beyond_ceiling max_pages (page st + Z.of_nat (length events)) = true
    \/ ((2 <= consecutive_empty_pages st)%Z /\ events = [])
    \/ ((1 <= consecutive_empty_pages st)%Z
        /\ exists e, events = [e] /\ accepted e = Some [])
    \/ (exists front e1 e2,
          events = front ++ [e1; e2]
          /\ accepted e1 = Some [] /\ accepted e2 = Some []).
Proof.
  induction fuel as [|fuel IH]; intros st result events; simpl; [discriminate|].
  destruct (iteration area_code st) as [[|st'] evs] eqn:Hit.
  - intros [= <- <-].
    apply iteration_break_reason in Hit as [[-> [Hc|Hb]]|[-> Hu]].
    + right. right. left. auto.
    + right. left. simpl. rewrite Z.add_0_r. exact Hb.
    + left. eexists. split; reflexivity.
  - destruct (scrape_loop area_code fuel st') as [[r later]|] eqn:Hloop;
      [|discriminate].
    intros [= <- <-].
    apply iteration_next in Hit
      as (_ & _ & response & pp & _ & _ & _ & -> & _ & _ & Hpage & Hc).
    simpl in Hc.
    destruct (IH _ _ _ Hloop)
      as [(ev & Hlast & Hacc)
         |[Hb|[[Hc2 ->]|[(Hc1 & e & -> & He)
                        |(front & e1 & e2 & -> & H1 & H2)]]]].
    + left. exists ev. split; [|exact Hacc].
      destruct later as [|e rest]; [discriminate | exact Hlast].
    + right. left. rewrite <- Hb, Hpage. f_equal. simpl length. lia.
    + right. right. right. left.
      destruct (filter_duplicates pp (seen_urls st)).1 as [|p new] eqn:Hnew;
        [|lia].
      split; [lia|]. eexists. split; reflexivity.
    + right. right. right. right.
      destruct (filter_duplicates pp (seen_urls st)).1 as [|p new] eqn:Hnew;
        [|lia].
      exists [], {| requested := page_url area transaction_type area_code (page st);
                    accepted := Some [] |}, e.
      repeat split; auto.
    + right. right. right. right. eexists (_ :: front), e1, e2.
      repeat split; auto.
Qed.

End Run.

End ControllerFacts.

(** ** Latin-1 text under any compatible database *)
Module Latin1Facts.
Import PyStr Scraper ReAgree.

Lemma db_compatible : latin1_compatible Latin1.db.
Proof. split; intros; auto. Qed.

Section Facts.
Context (U : Unicode) (compatible : latin1_compatible U).

Lemma search_latin1 r s :
  latin1_text s = true -> @Re.search U r s = @Re.search Latin1.db r s.
Proof. intros H. apply search_agree, compatible_agree; assumption. Qed.

Lemma matches_latin1 r s :
  latin1_text s = true -> @Re.matches U r s = @Re.matches Latin1.db r s.
Proof. intros H. apply matches_agree, compatible_agree; assumption. Qed.

Lemma py_int_latin1 s :
  latin1_text s = true -> @py_int U s = @py_int Latin1.db s.
Proof.
  intros H. unfold py_int.
  rewrite (digits_value_agree U Latin1.db s) by (apply compatible_agree; assumption).
  reflexivity.
Qed.

Lemma lower_latin1 s :
  latin1_text s = true -> @lower U s = Latin1.lower_str s.
Proof. intros H. apply compatible_lower; assumption. Qed.

Lemma features_latin1 s :
  latin1_text s = true -> @features U s = @features Latin1.db s.
Proof.
  intros H. unfold features.
  assert (Hfold : forall (l : list (Re.regex * pystr)) (acc : list pystr),
    fold_left (fun features pf =>
                 if @Re.matches U (fst pf) s then features ++ [snd pf]
                 else features) l acc
    = fold_left (fun features pf =>
                   if @Re.matches Latin1.db (fst pf) s then features ++ [snd pf]
                   else features) l acc).
  { induction l as [|pf rest IH]; intros acc; simpl; [reflexivity|].
    rewrite (matches_latin1 _ _ H). apply IH. }
  apply Hfold.
Qed.

End Facts.
End Latin1Facts.

(** ** Strings *)
Module PyStrFacts.
Import PyStr.

Lemma startswith_spec (s p : pystr) :
  startswith s p = true <-> exists rest, s = p ++ rest.
Proof.
  revert s. induction p as [|a p IH]; intros s; simpl.
  - split; [intros _; exists s|]; reflexivity.
  - destruct s as [|b s]; simpl.
    + split; [discriminate | intros [rest H]; discriminate].
    + rewrite andb_true_iff, N.eqb_eq, IH. split.
      * intros [-> [rest ->]]. eauto.
      * intros [rest [= -> ->]]. eauto.
Qed.

Lemma contains_spec (needle hay : pystr) :
  contains needle hay = true <-> exists before after, hay = before ++ needle ++ after.
Proof.
  induction hay as [|c hay IH]; simpl; rewrite orb_true_iff, startswith_spec.
  - split.
    + intros [[rest H]|H]; [|discriminate]. exists [], rest. exact H.
    + intros (before & after & H). left.
      destruct before; [|discriminate]. simpl in H. eauto.
  - rewrite IH. split.
    + intros [[rest H]|(before & after & ->)].
      * exists [], rest. exact H.
      * exists (c :: before), after. reflexivity.
    + intros (before & after & H). destruct before as [|b before]; simpl in H.
      * left. eauto.
      * injection H as -> ->. right. eauto.
Qed.

(** A text that holds a word holds every part of the word. *)
Lemma contains_part (before word after hay : pystr) :
  contains (before ++ word ++ after) hay = true -> contains word hay = true.
Proof.
  rewrite !contains_spec. intros (b & a & ->).
  exists (b ++ before), (after ++ a). rewrite <- !app_assoc. reflexivity.
Qed.

Lemma townhouse_house (text : pystr) :
  contains (str "townhouse") text = true -> contains (str "house") text = true.
Proof. apply (contains_part (str "town") (str "house") []). Qed.

End PyStrFacts.

(** ** Claims about the field extractor *)
Module FieldExtractor.
Import PyStr Scraper Examples ExtractorFacts Latin1Facts PyStrFacts.

Lemma features_fold (U : Unicode) text (l : list (Re.regex * pystr)) :
  forall (acc : list pystr) f,
    f ∈ fold_left (fun features pf =>
                     if Re.matches (fst pf) text then features ++ [snd pf]
                     else features) l acc
    <-> f ∈ acc \/ exists pattern, (pattern, f) ∈ l
                                   /\ Re.matches pattern text = true.
Proof.
  induction l as [|[pattern g] rest IH]; intros acc f; simpl.
  - split; [auto | intros [H|(p & H & _)]; [exact H|]].
    apply elem_of_nil in H as [].
  - rewrite IH. destruct (Re.matches pattern text) eqn:E.
    + rewrite elem_of_app, list_elem_of_singleton. split.
      * intros [[H| ->]|(p & H & Hm)]; eauto.
        -- right. exists pattern. split; [left|exact E].
        -- right. exists p. split; [right; exact H | exact Hm].
      * intros [H|(p & [[= -> ->]|H]%elem_of_cons & Hm)]; eauto.
    + split.
      * intros [H|(p & H & Hm)]; eauto.
        right. exists p. split; [right; exact H | exact Hm].
      * intros [H|(p & [[= -> ->]|H]%elem_of_cons & Hm)]; eauto. congruence.
Qed.

(** A highlight is listed exactly when its pattern matches. *)
Lemma features_spec (U : Unicode) text f :
  f ∈ features text
  <-> exists pattern, (pattern, f) ∈ feature_patterns
                      /\ Re.matches pattern text = true.
Proof.
  unfold features. rewrite features_fold, elem_of_nil. tauto.
Qed.

(** C9. For the fragment text [R 1 250 000 2 Bed 1 Bath 85m² Pool Security]
    the field extractor returns a record with price 1250000, 2 bedrooms,
    1 bathroom, size 85, highlights Pool then Security, type Property and
    title [2 Bedroom Property]; under every Unicode database that agrees
    with Python's on Latin-1, whatever the markup around the text. *)
Theorem scenario_record (U : Unicode) (element : Tag) (extract_images : bool) :
  latin1_compatible U ->
  e_text element = text_c9 ->
  exists r,
    _extract_property_data_enhanced element extract_images = Ok (Some r)
    /\ price r = Some (Some 1250000%Z)
    /\ bedrooms r = Some 2%Z
    /\ bathrooms r = Some 1%Z
    /\ size_sqm r = Some 85%Z
    /\ highlights r = Some [str "Pool"; str "Security"]
    /\ type r = str "Property"
    /\ title r = str "2 Bedroom Property".
Proof.
  intros Hc Htext.
  assert (Hprice : price_step text_c9 = Some (Some (Some 1250000%Z), None)).
  { unfold price_step. rewrite (search_latin1 U Hc) by (vm_compute; reflexivity).
    replace (@Re.search Latin1.db price_re text_c9)
      with (Some (Some (str "1 250 000"))) by (vm_compute; reflexivity).
    rewrite (py_int_latin1 U Hc) by (vm_compute; reflexivity).
    vm_compute. reflexivity. }
  assert (Hbed : int_group (Re.search bed_re text_c9) = Ok (Some 2%Z)).
  { rewrite (search_latin1 U Hc) by (vm_compute; reflexivity).
    replace (@Re.search Latin1.db bed_re text_c9)
      with (Some (Some (str "2"))) by (vm_compute; reflexivity).
    unfold int_group. rewrite (py_int_latin1 U Hc) by (vm_compute; reflexivity).
    vm_compute. reflexivity. }
  assert (Hbath : int_group (Re.search bath_re text_c9) = Ok (Some 1%Z)).
  { rewrite (search_latin1 U Hc) by (vm_compute; reflexivity).
    replace (@Re.search Latin1.db bath_re text_c9)
      with (Some (Some (str "1"))) by (vm_compute; reflexivity).
    unfold int_group. rewrite (py_int_latin1 U Hc) by (vm_compute; reflexivity).
    vm_compute. reflexivity. }
  assert (Hsize : int_group (Re.search size_re text_c9) = Ok (Some 85%Z)).
  { rewrite (search_latin1 U Hc) by (vm_compute; reflexivity).
    replace (@Re.search Latin1.db size_re text_c9)
      with (Some (Some (str "85"))) by (vm_compute; reflexivity).
    unfold int_group. rewrite (py_int_latin1 U Hc) by (vm_compute; reflexivity).
    vm_compute. reflexivity. }
  assert (Hlower : lower text_c9 = Latin1.lower_str text_c9)
    by (apply (lower_latin1 U Hc); vm_compute; reflexivity).
  assert (Hfeat : features (Latin1.lower_str text_c9)
                  = [str "Pool"; str "Security"]).
  { rewrite (features_latin1 U Hc) by (vm_compute; reflexivity).
    vm_compute. reflexivity. }
  assert (Htype : property_type (Latin1.lower_str text_c9) None = str "Property")
    by (vm_compute; reflexivity).
  unfold _extract_property_data_enhanced. rewrite Htext.
  replace ((length text_c9 <? 30)%nat || (2000 <? length text_c9)%nat)
    with false by (vm_compute; reflexivity).
  rewrite Hprice, Hbed, Hbath, Hsize. cbn [exc_bind].
  rewrite Hlower, Hfeat, Htype.
  eexists. split; [reflexivity|]. cbn [price bedrooms bathrooms size_sqm
    highlights type title]. repeat split. 
Qed.

Lemma scenario_record_witness :
  exists r,
    @_extract_property_data_enhanced Latin1.db tag_c9 true = Ok (Some r)
    /\ price r = Some (Some 1250000%Z)
    /\ bedrooms r = Some 2%Z
    /\ bathrooms r = Some 1%Z
    /\ size_sqm r = Some 85%Z
    /\ highlights r = Some [str "Pool"; str "Security"]
    /\ type r = str "Property"
    /\ title r = str "2 Bedroom Property".
Proof.
  apply (scenario_record Latin1.db tag_c9 true); [apply db_compatible|].
  reflexivity.
Defined.

Lemma extract_c9 :
  @_extract_property_data_enhanced Latin1.db tag_c9 true = Ok (Some record_c9).
Proof. vm_compute. reflexivity. Qed.

(** C10. A record of the field extractor never holds an empty [images] or
    [highlights] list. [images] is set only when the caller asked for
    images and the resolver returned at least one, and then holds what the
    resolver returned; [highlights] is set only when a feature pattern
    matched, and then lists the features whose pattern matched. Otherwise
    the key is not set. *)
Theorem no_empty_sequences (U : Unicode) (element : Tag)
    (extract_images : bool) (r : property_data) :
  _extract_property_data_enhanced element extract_images = Ok (Some r) ->
  images r <> Some [] /\ highlights r <> Some []
  /\ (forall l, images r = Some l ->
        extract_images = true /\ extract_property_images element = l)
  /\ (images r = None ->
        extract_images = false \/ extract_property_images element = [])
  /\ (forall l, highlights r = Some l ->
        forall f, f ∈ l <->
          exists pattern, (pattern, f) ∈ feature_patterns
            /\ Re.matches pattern (lower (e_text element)) = true)
  /\ (highlights r = None ->
        forall pattern f, (pattern, f) ∈ feature_patterns ->
          Re.matches pattern (lower (e_text element)) = false).
Proof.
  intros H. apply extract_inv in H
    as (_ & type0 & _ & _ & _ & _ & _ & _ & Himg & Hhl & _).
  rewrite Himg, Hhl. clear Himg Hhl.
  pose proof (features_spec U (lower (e_text element))) as Hspec.
  destruct (features (lower (e_text element))) as [|f0 fs].
  - repeat split; try discriminate.
    + destruct extract_images, (extract_property_images element); discriminate.
    + destruct extract_images; [|discriminate].
      destruct (extract_property_images element); [discriminate | reflexivity].
    + destruct extract_images; [|discriminate].
      destruct (extract_property_images element); congruence.
    + destruct extract_images; [|auto].
      destruct (extract_property_images element); [auto | discriminate].
    + intros _ pattern f Hin.
      destruct (Re.matches pattern _) eqn:E; [|reflexivity].
      exfalso. eapply elem_of_nil. apply Hspec. eauto.
  - repeat split; try discriminate.
    + destruct extract_images, (extract_property_images element); discriminate.
    + destruct extract_images; [|discriminate].
      destruct (extract_property_images element); [discriminate | reflexivity].
    + destruct extract_images; [|discriminate].
      destruct (extract_property_images element); congruence.
    + destruct extract_images; [|auto].
      destruct (extract_property_images element); [auto | discriminate].
    + injection H as <-. apply Hspec.
    + injection H as <-. apply Hspec.
Qed.

Lemma no_empty_sequences_witness :
  images record_c9 <> Some [] /\ highlights record_c9 <> Some []
  /\ (forall l, images record_c9 = Some l ->
        true = true /\ @extract_property_images Latin1.db tag_c9 = l)
  /\ (images record_c9 = None ->
        true = false \/ @extract_property_images Latin1.db tag_c9 = [])
  /\ (forall l, highlights record_c9 = Some l ->
        forall f, f ∈ l <->
          exists pattern, (pattern, f) ∈ feature_patterns
            /\ @Re.matches Latin1.db pattern
                 (@lower Latin1.db (e_text tag_c9)) = true)
  /\ (highlights record_c9 = None ->
        forall pattern f, (pattern, f) ∈ feature_patterns ->
          @Re.matches Latin1.db pattern
            (@lower Latin1.db (e_text tag_c9)) = false).
Proof. exact (no_empty_sequences Latin1.db tag_c9 true record_c9 extract_c9). Defined.

(** C4, as stated, fails. A fragment without price whose text holds
    development and apartment is tagged Apartment, not Development; and a
    fragment without price that holds development but is shorter than 30
    characters yields no record. *)
Lemma development_not_kept :
  (@Re.search Latin1.db price_re (e_text tag_development_apartment) = None
   /\ contains (str "development")
        (@lower Latin1.db (e_text tag_development_apartment)) = true
   /\ @_extract_property_data_enhanced Latin1.db tag_development_apartment false
      = Ok (Some {| price := Some None; bedrooms := None; bathrooms := None;
                    size_sqm := None; type := str "Apartment"; url := None;
                    images := None; highlights := None;
                    title := str "Apartment"; neighborhood_vibe := None;
                    area := None; selector_used := None |}))
  /\ (@Re.search Latin1.db price_re (e_text tag_development_short) = None
      /\ contains (str "development")
           (@lower Latin1.db (e_text tag_development_short)) = true
      /\ @_extract_property_data_enhanced Latin1.db tag_development_short false
         = Ok None).
Proof. vm_compute. repeat split. Qed.

(** C4, amended. For every fragment whose text passes the length gate, has
    no price match and holds development (in any case), the field extractor
    emits a record whose price is set to None; the record is tagged
    Development when the lower-cased text holds none of apartment, flat and
    house, and the keyword step replaces the tag otherwise: by Apartment
    when the text holds apartment or flat, else by House. *)
Theorem development_tag (U : Unicode) (element : Tag) (extract_images : bool) :
  in_gate (e_text element) ->
  Re.search price_re (e_text element) = None ->
  contains (str "development") (lower (e_text element)) = true ->
  exists r,
    _extract_property_data_enhanced element extract_images = Ok (Some r)
    /\ price r = Some None
    /\ (contains (str "apartment") (lower (e_text element)) = false ->
        contains (str "flat") (lower (e_text element)) = false ->
        contains (str "house") (lower (e_text element)) = false ->
        type r = str "Development")
    /\ (contains (str "apartment") (lower (e_text element))
        || contains (str "flat") (lower (e_text element)) = true ->
        type r = str "Apartment")
    /\ (contains (str "apartment") (lower (e_text element))
        || contains (str "flat") (lower (e_text element)) = false ->
        contains (str "house") (lower (e_text element)) = true ->
        type r = str "House").
Proof.
  intros Hgate Hprice Hdev.
  assert (Hstep : price_step (e_text element)
                  = Some (Some None, Some (str "Development"))).
  { unfold price_step. rewrite Hprice, Hdev. reflexivity. }
  destruct (extract_accepts element extract_images _ _ Hgate Hstep) as [r Hr].
  exists r. split; [exact Hr|].
  apply extract_inv in Hr as (_ & type0 & Hstep' & _ & _ & _ & Htype & _).
  rewrite Hstep in Hstep'. injection Hstep' as Hp <-.
  split; [symmetry; exact Hp|]. rewrite Htype. unfold property_type.
  repeat split.
  - intros -> -> Hhouse. simpl. rewrite Hhouse.
    destruct (contains (str "townhouse") _) eqn:E; [|reflexivity].
    apply townhouse_house in E. congruence.
  - intros ->. reflexivity.
  - intros -> ->. reflexivity.
Qed.

Lemma development_tag_witness :
  exists r,
    @_extract_property_data_enhanced Latin1.db tag_development true = Ok (Some r)
    /\ price r = Some None
    /\ (contains (str "apartment") (@lower Latin1.db (e_text tag_development))
        = false ->
        contains (str "flat") (@lower Latin1.db (e_text tag_development))
        = false ->
        contains (str "house") (@lower Latin1.db (e_text tag_development))
        = false ->
        type r = str "Development")
    /\ (contains (str "apartment") (@lower Latin1.db (e_text tag_development))
        || contains (str "flat") (@lower Latin1.db (e_text tag_development))
        = true ->
        type r = str "Apartment")
    /\ (contains (str "apartment") (@lower Latin1.db (e_text tag_development))
        || contains (str "flat") (@lower Latin1.db (e_text tag_development))
        = false ->
        contains (str "house") (@lower Latin1.db (e_text tag_development))
        = true ->
        type r = str "House").
Proof.
  apply (development_tag Latin1.db tag_development true).
  - unfold in_gate. simpl. lia.
  - vm_compute. reflexivity.
  - vm_compute. reflexivity.
Defined.

(** C5, as stated, fails. The first anchor of the fragment leads to an
    agent page and the second to the listing: the record has no [url],
    though an anchor of the fragment holds the for-sale marker. *)
Lemma first_anchor_elsewhere :
  e_anchors tag_two_anchors = [str "/agents/1"; str "/for-sale/sea-point/1"]
  /\ contains (str "/for-sale/") (str "/for-sale/sea-point/1") = true
  /\ @_extract_property_data_enhanced Latin1.db tag_two_anchors false
     = Ok (Some record_c9)
  /\ url record_c9 = None.
Proof. vm_compute. repeat split. Qed.

(** C5, amended. The [url] of a record is decided by the first anchor of
    the fragment that has a target, alone: it is absent when the fragment
    has no such anchor or when the target of that first anchor does not
    hold the for-sale marker; otherwise it is that target, as it is when
    it starts with http and prefixed by the site origin when not. *)
Theorem first_anchor_decides (U : Unicode) (element : Tag)
    (extract_images : bool) (r : property_data) :
  _extract_property_data_enhanced element extract_images = Ok (Some r) ->
  url r =
    match e_anchors element with
    | [] => None
    | href :: _ =>
        if contains (str "/for-sale/") href then
          if startswith href (str "http") then Some href
          else Some (str "https://www.property24.com" ++ href)
        else None
    end.
Proof.
  intros H. apply extract_inv in H
    as (_ & type0 & _ & _ & _ & _ & _ & Hurl & _).
  rewrite Hurl. unfold listing_url.
  destruct (e_anchors element) as [|href rest]; [reflexivity|].
  destruct (contains _ href); [|reflexivity].
  destruct (startswith href _); reflexivity.
Qed.

Lemma extract_one_anchor :
  @_extract_property_data_enhanced Latin1.db tag_one_anchor true
  = Ok (Some record_one_anchor).
Proof. vm_compute. reflexivity. Qed.

Lemma first_anchor_decides_witness :
  url record_one_anchor
  = Some (str "https://www.property24.com/for-sale/sea-point/1").
Proof.
  rewrite (first_anchor_decides Latin1.db tag_one_anchor true record_one_anchor
             extract_one_anchor).
  reflexivity.
Defined.

End FieldExtractor.

(** ** Claims about the image resolver *)
Module ImageResolver.
Import PyStr Scraper Examples ImageFacts.


(** C6, as stated, fails. The tag strategy gathers one image URL; the
    embedded data holds an entry whose url is a dict, which cannot be
    hashed when duplicates are removed. The exception is caught, and the
    resolver returns the empty list: the URL of the other strategy is not
    returned. *)
Lemma other_strategies_discarded :
  fold_left from_img (e_imgs tag_unhashable) []
  = [JStr (str "https://www.property24.com/images/property/1.jpg")]
  /\ @gather_images Latin1.db tag_unhashable
     = [JStr (str "https://www.property24.com/images/property/1.jpg"); JObj []]
  /\ @extract_property_images_try Latin1.db tag_unhashable = Raise TypeError
  /\ @extract_property_images Latin1.db tag_unhashable = [].
Proof. vm_compute. repeat split. Qed.

Lemma gather_skips_failed (U : Unicode) (element : Tag) pre x post :
  e_json_scripts element = pre ++ Raise x :: post ->
  gather_images element = gather_images (with_scripts element (pre ++ post)).
Proof.
  intros H. unfold gather_images. rewrite H. simpl.
  rewrite !fold_left_app. reflexivity.
Qed.

(** C6, amended. No exception leaves the image resolver: whatever the
    [try] block does, a list is returned. A script whose decoding fails is
    passed over, and it alone: the result is that of the fragment without
    the script. Every other exception of the block (one is raised exactly
    when a gathered value cannot be hashed) is caught by the outer handler,
    which returns the empty list. *)
Theorem resolver_catches (U : Unicode) (element : Tag) :
  (forall x, extract_property_images_try element = Raise x ->
     extract_property_images element = [])
  /\ (forall l, extract_property_images_try element = Ok l ->
       extract_property_images element = l)
  /\ ((exists x, extract_property_images_try element = Raise x)
      <-> Exists (fun v => hash_key v = None) (gather_images element))
  /\ (forall pre x post,
       e_json_scripts element = pre ++ Raise x :: post ->
       extract_property_images element
       = extract_property_images (with_scripts element (pre ++ post))).
Proof.
  split; [|split; [|split]].
  - intros x H. unfold extract_property_images. rewrite H. reflexivity.
  - intros l H. unfold extract_property_images. rewrite H. reflexivity.
  - rewrite <- (remove_duplicates_raises (gather_images element) ∅ []).
    unfold extract_property_images_try.
    destruct (remove_duplicates _ _ _) as [unique|x]; split;
      intros [y Hy]; try discriminate; eauto.
  - intros pre x post H.
    unfold extract_property_images, extract_property_images_try.
    rewrite (gather_skips_failed U element pre x post H). reflexivity.
Qed.

End ImageResolver.

(** ** Claims about the page assembler *)
Module PageAssembler.
Import PyStr Scraper Examples AssemblerFacts.

(** C2. For every page the assembler returns a list in which no two
    records have the same (price, bedrooms, size_sqm) key. Each record of
    the list is the first discovered record with its key, stamped with the
    area and its selector: no record discovered before it has the key. A
    later fragment with the key of an earlier one is dropped, and every
    discovered key is in the list. *)
Theorem page_keys_unique (U : Unicode) (soup : soup) (area : pystr)
    (extract_images : bool) :
  exists out,
    _extract_all_properties_from_page soup area extract_images = Ok out
    /\ NoDup (dedup_key <$> out)
    /\ (forall r, r ∈ out ->
          exists pre selector prop post,
            discovered soup extract_images = pre ++ (selector, prop) :: post
            /\ r = stamp area selector prop
            /\ Forall (fun c => dedup_key c.2 <> dedup_key prop) pre)
    /\ (forall pre c post,
          discovered soup extract_images = pre ++ c :: post ->
          (exists c', c' ∈ pre /\ dedup_key c'.2 = dedup_key c.2) ->
          forall r, r ∈ out -> dedup_key r = dedup_key c.2 ->
            exists c', c' ∈ pre /\ r = stamp area c'.1 c'.2)
    /\ (forall c, c ∈ discovered soup extract_images ->
          dedup_key c.2 ∈ dedup_key <$> out).
Proof.
  destruct (assemble_spec soup area extract_images)
    as (out & Hout & Hnd & Hsub & Hfirst & Hall).
  exists out. repeat split; auto.
  intros pre c post Hd (c' & Hc' & Hkey) r Hr Hrk.
  destruct (Hfirst r Hr) as (pre' & selector & prop & post' & Hd' & -> & Hpre').
  rewrite dedup_key_stamp in Hrk.
  (* the record kept for the key stands before [c] *)
  assert (Hlen : (length pre' < length pre)%nat).
  { destruct (Nat.lt_ge_cases (length pre') (length pre)) as [|Hge]; [assumption|].
    exfalso. rewrite Hd in Hd'.
    assert (Hin : c' ∈ pre') .
    { apply list_elem_of_lookup in Hc' as [i Hi].
      apply list_elem_of_lookup. exists i.
      assert (Hlt : (i < length pre)%nat) by (eapply lookup_lt_Some; eauto).
      assert (H1 : (pre ++ c :: post) !! i = Some c')
        by (rewrite lookup_app_l; assumption).
      rewrite Hd' in H1. rewrite lookup_app_l in H1 by lia. exact H1. }
    rewrite Forall_forall in Hpre'. apply (Hpre' _ Hin). congruence. }
  exists (selector, prop). split; [|reflexivity].
  apply list_elem_of_lookup. exists (length pre').
  assert (H1 : (pre' ++ (selector, prop) :: post') !! length pre'
               = Some (selector, prop)) by (apply list_lookup_middle; reflexivity).
  rewrite <- Hd', Hd, lookup_app_l in H1 by assumption. exact H1.
Qed.

End PageAssembler.

(** ** Claims about the pagination controller *)
Module Pagination.
Import PyStr Scraper Examples AssemblerFacts ControllerFacts.

Section Run.
Context {U : Unicode}.
Variable session_get : pystr -> exc response.
Variables (area transaction_type : pystr).
Variable max_pages : option Z.
Variable extract_images : bool.

Local Abbreviation iteration :=
  (iteration session_get area transaction_type max_pages extract_images).
Local Abbreviation scrape_loop :=
  (scrape_loop session_get area transaction_type max_pages extract_images).
Local Abbreviation scrape_area :=
  (scrape_area session_get area transaction_type max_pages extract_images).
Local Abbreviation processed := (processed session_get area extract_images).
Local Abbreviation page_records :=
  (page_records session_get area extract_images).
Local Abbreviation stopped := (stopped max_pages).

(** A run is the empty run of an unknown area, or the loop from the
    initial state. *)
Lemma scrape_area_cases fuel result events :
  scrape_area fuel = Some (result, events) ->
  (result = [] /\ events = [])
  \/ exists area_code, scrape_loop area_code fuel initial = Some (result, events).
Proof.
  unfold Scraper.scrape_area.
  destruct (PROPERTY24_AREA_CODES !! _) as [area_code|];
    [|intros [= <- <-]; auto].
  destruct (area_code =? 0)%Z; [intros [= <- <-]; auto | eauto].
Qed.



(** Under a ceiling the loop reaches a [break]: every turn that goes on
    moves to the next page, and a page beyond the ceiling is not
    requested. *)
Lemma loop_terminates area_code m :
  max_pages = Some m -> (0 < m)%Z ->
  forall fuel st,
    (1 <= fuel)%nat -> (m + 1 < page st + Z.of_nat fuel)%Z ->
    exists r, scrape_loop area_code fuel st = Some r.
Proof.
  intros Hmax Hm fuel. induction fuel as [|fuel IH]; intros st Hfuel Hpage;
    [lia|]. simpl.
  destruct (iteration area_code st) as [[|st'] evs] eqn:Hit; [eauto|].
  apply iteration_next in Hit
    as (_ & Hceil & response & pp & _ & _ & _ & _ & _ & _ & Hnext & _).
  unfold beyond_ceiling in Hceil. rewrite Hmax in Hceil.
  assert (Hle : (page st <= m)%Z).
  { apply andb_false_iff in Hceil as [H|H].
    - apply negb_false_iff, Z.eqb_eq in H. lia.
    - apply Z.ltb_ge in H. exact H. }
  destruct (IH st') as [[r later] ->]; [lia | rewrite Hnext; lia | eauto].
Qed.

(** With a positive ceiling [scrape_area] returns. *)
Lemma scrape_area_terminates m :
  max_pages = Some m -> (0 < m)%Z ->
  exists r, scrape_area (S (Z.to_nat m)) = Some r.
Proof.
  intros Hmax Hm. unfold Scraper.scrape_area.
  destruct (PROPERTY24_AREA_CODES !! _) as [area_code|]; [|eauto].
  destruct (area_code =? 0)%Z; [eauto|].
  apply (loop_terminates area_code m Hmax Hm); simpl page; lia.
Qed.

Lemma run_spec fuel result events :
  scrape_area fuel = Some (result, events) ->
  result = concat (chunks events)
  /\ NoDup (present_urls result)
  /\ Forall (fun ev => forall new, accepted ev = Some new -> processed ev new)
       events.
Proof.
  intros H. apply scrape_area_cases in H as [[-> ->]|[area_code H]].
  - split; [reflexivity|]. split; [apply NoDup_nil_2 | constructor].
  - apply scrape_loop_spec in H; [exact H | apply initial_consistent].
Qed.

Lemma chunk_event (events : list event) (chunk : list property_data) :
  chunk ∈ chunks events -> exists ev, ev ∈ events /\ accepted ev = Some chunk.
Proof. unfold chunks. rewrite list_elem_of_omap. intros (ev & H1 & H2). eauto. Qed.

Lemma event_chunk (events : list event) ev (new : list property_data) :
  ev ∈ events -> accepted ev = Some new -> new ∈ chunks events.
Proof. unfold chunks. rewrite list_elem_of_omap. eauto. Qed.

(** C1, amended. In one run of [scrape_area] the returned list is the
    sequence of the records accepted page by page. The records accepted
    from one page have pairwise distinct (price, bedrooms, size_sqm)
    tuples, and over the whole run the records that carry a URL have
    pairwise distinct URLs; each accepted list comes from a fetched page
    and keeps all its records without URL. *)
Theorem tuples_unique_per_page fuel result events :
  scrape_area fuel = Some (result, events) ->
  result = concat (chunks events)
  /\ Forall (fun chunk => NoDup (dedup_key <$> chunk)) (chunks events)
  /\ NoDup (present_urls result)
  /\ Forall (fun ev => forall new, accepted ev = Some new -> processed ev new)
       events.
Proof.
  intros H. apply run_spec in H as (Hres & Hnd & Hev).
  repeat split; auto.
  apply Forall_forall. intros chunk Hchunk.
  apply chunk_event in Hchunk as (ev & Hin & Hacc).
  rewrite Forall_forall in Hev.
  destruct (Hev ev Hin chunk Hacc) as (response & pp & _ & _ & Hpp & Hsub & _).
  destruct (assemble_spec (page_soup response) area extract_images)
    as (out & Hout & Hkeys & _).
  rewrite Hpp in Hout. injection Hout as <-.
  eapply sublist_NoDup; [exact Hkeys|]. apply fmap_sublist. exact Hsub.
Qed.

(** C3. In every run of [scrape_area] the returned records that carry a
    URL have pairwise distinct URLs (a URL that is set is never the empty
    string), and no record without URL is dropped across pages. The
    returned list is the sequence of the records accepted page by page;
    the records accepted from a page are records of that page, fetched
    with status 200 and assembled, in their order; among them are all the
    records of the page without URL, each as often as the page has it; and
    every URL of the page is a URL of the result. So the returned records
    without URL are exactly those of the requested pages, in the order of
    the requests and with their repetitions. The run of a configured area
    requests the pages 1, 2, 3, ... of the area in this order, and stops
    only after a failed fetch, at the page ceiling, or after two pages in
    a row without new record. *)
Theorem urls_distinct_urlless_kept fuel result events :
  scrape_area fuel = Some (result, events) ->
  NoDup (present_urls result)
  /\ (forall prop, prop ∈ result -> present_url prop = url prop)
  /\ result = concat (chunks events)
  /\ (forall ev new, ev ∈ events -> accepted ev = Some new ->
        exists response page_properties,
          session_get (requested ev) = Ok response
          /\ status_code response = 200%Z
          /\ _extract_all_properties_from_page (page_soup response) area
               extract_images = Ok page_properties
          /\ new `sublist_of` page_properties
          /\ without_url new = without_url page_properties
          /\ (forall prop, prop ∈ page_properties ->
                present_url prop = None -> prop ∈ result)
          /\ (forall prop u, prop ∈ page_properties ->
                present_url prop = Some u -> u ∈ present_urls result))
  /\ without_url result
     = concat ((fun ev => without_url (page_records (requested ev))) <$> events)
  /\ (forall area_code,
        PROPERTY24_AREA_CODES !! area_normalized area = Some area_code ->
        area_code <> 0%Z ->
        stopped events
        /\ forall i ev, events !! i = Some ev ->
             requested ev
             = page_url area transaction_type area_code (Z.of_nat i + 1)).
Proof.
  intros H. pose proof H as Hrun.
  apply run_spec in H as (Hres & Hnd & Hev).
  rewrite Forall_forall in Hev.
  assert (Hkept : Forall (fun ev =>
            match accepted ev with
            | Some new =>
                new `sublist_of` page_records (requested ev)
                /\ without_url new = without_url (page_records (requested ev))
                /\ forall prop u, prop ∈ page_records (requested ev) ->
                     present_url prop = Some u -> u ∈ present_urls result
            | None => page_records (requested ev) = []
            end) events).
  { apply scrape_area_cases in Hrun as [[-> ->]|[area_code Hrun]];
      [constructor|].
    eapply scrape_loop_kept; [exact Hrun | apply initial_consistent]. }
  split; [exact Hnd|]. split.
  { intros prop Hprop. rewrite Hres in Hprop.
    apply list_elem_of_In, in_concat in Hprop as (chunk & Hchunk & Hin).
    apply list_elem_of_In, chunk_event in Hchunk as (ev & Hev' & Hacc).
    destruct (Hev ev Hev' chunk Hacc) as (response & pp & _ & _ & Hpp & Hsub & _).
    eapply assembled_url_present; [exact Hpp|].
    eapply elem_of_sublist; [apply list_elem_of_In; exact Hin | exact Hsub]. }
  split; [exact Hres|]. split.
  { intros ev new Hin Hacc.
    destruct (Hev ev Hin new Hacc)
      as (response & pp & Hget & Hst & Hpp & Hsub & Hless).
    rewrite Forall_forall in Hkept. specialize (Hkept ev Hin).
    rewrite Hacc, (page_records_fetched _ _ _ _ _ _ Hget Hst Hpp) in Hkept.
    destruct Hkept as (_ & Hwithout & Hurls).
    exists response, pp. repeat split; auto.
    intros prop Hprop Hurl. rewrite Hres. apply list_elem_of_In, in_concat.
    exists new. split; apply list_elem_of_In; [eapply event_chunk; eauto | auto]. }
  split.
  { rewrite Hres, without_url_concat. unfold chunks.
    assert (Hpages : Forall (fun ev =>
              without_url (page_records (requested ev))
              = match accepted ev with
                | Some new => without_url new
                | None => []
                end) events).
    { eapply Forall_impl; [exact Hkept|]. intros ev Hhead. simpl in Hhead.
      destruct (accepted ev) as [new|].
      - destruct Hhead as (_ & -> & _). reflexivity.
      - rewrite Hhead. reflexivity. }
    clear Hev Hres Hrun Hnd Hkept.
    induction Hpages as [|ev rest Hhead _ IH]; [reflexivity|].
    rewrite fmap_cons, concat_cons, Hhead, <- IH.
    change (omap accepted (ev :: rest))
      with (match accepted ev with
            | Some new => new :: omap accepted rest
            | None => omap accepted rest
            end).
    destruct (accepted ev) as [new|]; reflexivity. }
  intros area_code Hcode Hnz. revert Hrun. unfold Scraper.scrape_area.
  rewrite Hcode. rewrite (proj2 (Z.eqb_neq area_code 0) Hnz). intros Hrun.
  split.
  - apply scrape_loop_stops in Hrun. simpl in Hrun. unfold Scraper.stopped.
    destruct Hrun as [Hfail|[Hb|[[Hc _]|[[Hc _]|Htwo]]]]; try lia.
    + left. exact Hfail.
    + right. left. rewrite Z.add_comm. exact Hb.
    + right. right. exact Htwo.
  - intros i ev Hi.
    erewrite scrape_loop_pages by eauto. simpl page.
    f_equal. lia.
Qed.


End Run.

(** C1, as stated, fails. Two pages each hold one listing with the same
    price, bedrooms and size and a URL of its own: both records are
    returned, with the same tuple and both with a URL. And on one page,
    two fragments without URL and with the same tuple are deduplicated
    against each other: only the first is returned. *)
Lemma same_tuple_two_urls :
  (run_two_pages = Some (result_two_pages, trace_two_pages)
   /\ List.map dedup_key result_two_pages
      = [(Some 1250000%Z, Some 2%Z, Some 85%Z);
         (Some 1250000%Z, Some 2%Z, Some 85%Z)]
   /\ List.map present_url result_two_pages
      = [Some (str "https://www.property24.com/for-sale/sea-point/1");
         Some (str "https://www.property24.com/for-sale/sea-point/2")])
  /\ (List.map (fun c => (dedup_key c.2, url c.2, highlights c.2))
        (@discovered Latin1.db page_without_urls true)
      = [((Some 1250000%Z, Some 2%Z, Some 85%Z), None,
          Some [str "Pool"; str "Security"]);
         ((Some 1250000%Z, Some 2%Z, Some 85%Z), None,
          Some [str "Pool"; str "Garden"; str "Security"])]
      /\ (List.map highlights ∘ fst) <$> run_one_page
         = Some [Some [str "Pool"; str "Security"]]).
Proof. vm_compute. repeat split. Qed.

Lemma run_two_pages_result :
  run_two_pages = Some (result_two_pages, trace_two_pages).
Proof. vm_compute. reflexivity. Qed.


Lemma run_mixed_page_result :
  run_mixed_page = Some (result_mixed_page, trace_mixed_page).
Proof. vm_compute. reflexivity. Qed.

Lemma tuples_unique_per_page_witness :
  result_two_pages = concat (chunks trace_two_pages)
  /\ Forall (fun chunk => NoDup (dedup_key <$> chunk)) (chunks trace_two_pages)
  /\ NoDup (present_urls result_two_pages)
  /\ Forall (fun ev => forall new, accepted ev = Some new ->
                @processed Latin1.db two_pages (str "Sea Point") true ev new)
       trace_two_pages.
Proof.
  exact (@tuples_unique_per_page Latin1.db two_pages (str "Sea Point")
           (str "for-sale") None true 3%nat result_two_pages trace_two_pages
           run_two_pages_result).
Defined.

(** Three pages, each with the same two listings: the listing with a URL
    is returned once, the listing without URL three times. *)
Lemma urls_distinct_urlless_kept_witness :
  (List.map present_url result_mixed_page
   = [Some (str "https://www.property24.com/for-sale/sea-point/1");
      None; None; None]
   /\ length trace_mixed_page = 3%nat)
  /\ NoDup (present_urls result_mixed_page)
  /\ (forall prop, prop ∈ result_mixed_page -> present_url prop = url prop)
  /\ result_mixed_page = concat (chunks trace_mixed_page)
  /\ (forall ev new, ev ∈ trace_mixed_page -> accepted ev = Some new ->
        exists response page_properties,
          mixed_page (requested ev) = Ok response
          /\ status_code response = 200%Z
          /\ @_extract_all_properties_from_page Latin1.db (page_soup response)
               (str "Sea Point") true = Ok page_properties
          /\ new `sublist_of` page_properties
          /\ without_url new = without_url page_properties
          /\ (forall prop, prop ∈ page_properties ->
                present_url prop = None -> prop ∈ result_mixed_page)
          /\ (forall prop u, prop ∈ page_properties ->
                present_url prop = Some u ->
                u ∈ present_urls result_mixed_page))
  /\ without_url result_mixed_page
     = concat ((fun ev => without_url
                            (@page_records Latin1.db mixed_page
                               (str "Sea Point") true (requested ev)))
                 <$> trace_mixed_page)
  /\ (forall area_code,
        PROPERTY24_AREA_CODES !! @area_normalized Latin1.db (str "Sea Point")
        = Some area_code ->
        area_code <> 0%Z ->
        stopped (Some 3%Z) trace_mixed_page
        /\ forall i ev, trace_mixed_page !! i = Some ev ->
             requested ev
             = @page_url Latin1.db (str "Sea Point") (str "for-sale") area_code
                 (Z.of_nat i + 1)).
Proof.
  split; [vm_compute; split; reflexivity|].
  exact (@urls_distinct_urlless_kept Latin1.db mixed_page (str "Sea Point")
           (str "for-sale") (Some 3%Z) true 4%nat result_mixed_page
           trace_mixed_page run_mixed_page_result).
Defined.


End Pagination.

(** * Further properties of the code *)

(** ** The field extractor *)
Module ExtractorExtras.
Import PyStr Scraper ScraperRest Examples MoreExamples ExtractorFacts PyStrFacts.

Section Facts.
Context {U : Unicode}.

Lemma price_step_none text :
  price_step text = None
  <-> Re.search price_re text = None
      /\ contains (str "development") (lower text) = false.
Proof.
  unfold price_step. destruct (Re.search price_re text) as [[g|]|].
  - destruct (py_int _); split; [discriminate | intros [? _]; discriminate
                                | discriminate | intros [? _]; discriminate].
  - split; [discriminate | intros [? _]; discriminate].
  - destruct (contains _ _); split; try discriminate; auto.
    intros [_ ?]; discriminate.
Qed.

(** The tag that the price step hands to the type step. *)
Lemma price_step_type text p type0 :
  price_step text = Some (p, type0) ->
  (type0 = None /\ is_Some (Re.search price_re text))
  \/ (type0 = Some (str "Development") /\ p = Some None
      /\ Re.search price_re text = None).
Proof.
  unfold price_step. destruct (Re.search price_re text) as [[g|]|].
  - destruct (py_int _); intros [= <- <-]; left; eauto.
  - intros [= <- <-]; left; eauto.
  - destruct (contains _ _); [|discriminate]. intros [= <- <-]. right. auto.
Qed.

(** The whole record of an accepted fragment. *)
Lemma extract_record element extract_images r :
  _extract_property_data_enhanced element extract_images = Ok (Some r) ->
  exists type0,
    price_step (e_text element) = Some (price r, type0)
    /\ type r = property_type (lower (e_text element)) type0
    /\ title r = (if has_bedrooms (bedrooms r)
                  then str_of_int (default 0%Z (bedrooms r))
                       ++ str " Bedroom " ++ type r
                  else type r)
    /\ neighborhood_vibe r
       = (if contains (str "walking distance") (lower (e_text element))
          then Some (str "Walking distance to amenities") else None)
    /\ highlights r = match features (lower (e_text element)) with
                      | [] => None
                      | l => Some l
                      end.
Proof.
  unfold _extract_property_data_enhanced.
  destruct (_ || _); [discriminate|].
  destruct (price_step _) as [[p type0]|]; [|discriminate].
  destruct (int_group (Re.search bed_re _)) as [b|]; [|discriminate].
  destruct (int_group (Re.search bath_re _)) as [ba|]; [|discriminate].
  destruct (int_group (Re.search size_re _)) as [sz|]; [|discriminate].
  simpl. intros [= <-]. simpl. exists type0. repeat split; reflexivity.
Qed.

Lemma int_group_nonneg m n :
  int_group m = Ok (Some n) -> (0 <= n)%Z.
Proof.
  unfold int_group, py_int. destruct m as [[g|]|]; try discriminate.
  destruct g; [discriminate|]. destruct (digits_value _ _); [|discriminate].
  simpl. intros [= <-]. lia.
Qed.

Lemma price_step_nonneg text n type0 :
  price_step text = Some (Some (Some n), type0) -> (0 <= n)%Z.
Proof.
  unfold price_step. destruct (Re.search price_re text) as [[g|]|].
  - unfold py_int. destruct (replace _ _ _); [discriminate|].
    destruct (digits_value _ _); [|discriminate]. intros [= <- _]. lia.
  - discriminate.
  - destruct (contains _ _); discriminate.
Qed.

End Facts.

(** X1. The field extractor never raises. It returns a record exactly for
    the fragments whose text has 30 to 2000 characters and a price match
    or the word development (in any case), and [None] for all others. *)
Theorem acceptance (U : Unicode) (element : Tag) (extract_images : bool) :
  (forall x, _extract_property_data_enhanced element extract_images <> Raise x)
  /\ ((exists r, _extract_property_data_enhanced element extract_images
                 = Ok (Some r))
      <-> in_gate (e_text element)
          /\ (is_Some (Re.search price_re (e_text element))
              \/ contains (str "development") (lower (e_text element)) = true))
  /\ (_extract_property_data_enhanced element extract_images = Ok None
      <-> ~ (in_gate (e_text element)
             /\ (is_Some (Re.search price_re (e_text element))
                 \/ contains (str "development") (lower (e_text element))
                    = true))).
Proof.
  assert (Hiff : (exists r, _extract_property_data_enhanced element extract_images
                            = Ok (Some r))
      <-> in_gate (e_text element)
          /\ (is_Some (Re.search price_re (e_text element))
              \/ contains (str "development") (lower (e_text element)) = true)).
  { split.
    - intros [r Hr]. apply extract_inv in Hr as (Hgate & type0 & Hp & _).
      split; [exact Hgate|].
      destruct (Re.search price_re (e_text element)) as [g|] eqn:Hs; [left; eauto|].
      right. destruct (contains _ _) eqn:Hc; [reflexivity|].
      assert (Hnone : price_step (e_text element) = None)
        by (apply price_step_none; auto).
      congruence.
    - intros [Hgate Hor].
      destruct (price_step (e_text element)) as [[p type0]|] eqn:Hp.
      + eapply extract_accepts; eauto.
      + apply price_step_none in Hp as [Hs Hc]. rewrite Hs, Hc in Hor.
        destruct Hor as [[g Hg]|Hd]; discriminate. }
  destruct (extract_total element extract_images) as [[r|] Hr].
  - split; [intros x; congruence|]. split; [exact Hiff|].
    split; [congruence|]. intros Hn. exfalso. apply Hn, Hiff. eauto.
  - split; [intros x; congruence|]. split; [exact Hiff|].
    split; [|auto]. intros _ Hacc. apply Hiff in Hacc as [r' Hr']. congruence.
Qed.

(** X2. A record is tagged Apartment, House, Property or Development, and
    never Townhouse: a text that holds townhouse holds house, which is
    tested first. The tag Development is only on records of fragments
    without price match. *)
Theorem never_townhouse (U : Unicode) (element : Tag) (extract_images : bool)
    (r : property_data) :
  _extract_property_data_enhanced element extract_images = Ok (Some r) ->
  type r <> str "Townhouse"
  /\ (type r = str "Apartment" \/ type r = str "House"
      \/ type r = str "Property" \/ type r = str "Development")
  /\ (contains (str "townhouse") (lower (e_text element)) = true ->
      type r = str "Apartment" \/ type r = str "House")
  /\ (type r = str "Development" ->
      Re.search price_re (e_text element) = None).
Proof.
  intros H. apply extract_record in H as (type0 & Hp & Htype & _).
  rewrite Htype. unfold property_type.
  apply price_step_type in Hp.
  destruct (contains (str "apartment") _ || contains (str "flat") _).
  { repeat split; auto; discriminate. }
  destruct (contains (str "house") _) eqn:Hhouse.
  { repeat split; auto; discriminate. }
  destruct (contains (str "townhouse") _) eqn:Htown.
  { apply townhouse_house in Htown. congruence. }
  destruct Hp as [[-> _]|(-> & _ & Hs)].
  - repeat split; auto; discriminate.
  - repeat split; auto 6; discriminate.
Qed.

Lemma extract_townhouse :
  @_extract_property_data_enhanced Latin1.db tag_townhouse true
  = Ok (Some record_townhouse).
Proof. vm_compute. reflexivity. Qed.

Lemma never_townhouse_witness :
  type record_townhouse <> str "Townhouse"
  /\ (type record_townhouse = str "Apartment"
      \/ type record_townhouse = str "House"
      \/ type record_townhouse = str "Property"
      \/ type record_townhouse = str "Development")
  /\ (contains (str "townhouse") (@lower Latin1.db (e_text tag_townhouse))
      = true ->
      type record_townhouse = str "Apartment"
      \/ type record_townhouse = str "House")
  /\ (type record_townhouse = str "Development" ->
      @Re.search Latin1.db price_re (e_text tag_townhouse) = None).
Proof.
  exact (never_townhouse Latin1.db tag_townhouse true record_townhouse
           extract_townhouse).
Defined.

(** X3. The title of a record is its type, preceded by the number of
    bedrooms and the word Bedroom when the record has bedrooms and their
    number is not zero; a fragment with 0 bedrooms is titled by its type
    alone. The price and the numbers of bedrooms and bathrooms and the
    size are never negative. *)
Theorem title_and_numbers (U : Unicode) (element : Tag)
    (extract_images : bool) (r : property_data) :
  _extract_property_data_enhanced element extract_images = Ok (Some r) ->
  title r = match bedrooms r with
            | Some n => if (n =? 0)%Z then type r
                        else str_of_int n ++ str " Bedroom " ++ type r
            | None => type r
            end
  /\ (forall n, price r = Some (Some n) -> (0 <= n)%Z)
  /\ (forall n, bedrooms r = Some n -> (0 <= n)%Z)
  /\ (forall n, bathrooms r = Some n -> (0 <= n)%Z)
  /\ (forall n, size_sqm r = Some n -> (0 <= n)%Z).
Proof.
  intros H. pose proof (extract_record _ _ _ H) as (type0 & _ & _ & Htitle & _).
  apply extract_inv in H as (_ & type1 & Hp & Hb & Hba & Hsz & _).
  split.
  - rewrite Htitle. destruct (bedrooms r) as [n|]; [|reflexivity].
    simpl. destruct (n =? 0)%Z; reflexivity.
  - split; [|repeat split].
    + intros n Hn. rewrite Hn in Hp. eapply price_step_nonneg. exact Hp.
    + intros n Hn. rewrite Hn in Hb. eapply int_group_nonneg. exact Hb.
    + intros n Hn. rewrite Hn in Hba. eapply int_group_nonneg. exact Hba.
    + intros n Hn. rewrite Hn in Hsz. eapply int_group_nonneg. exact Hsz.
Qed.

Lemma extract_studio :
  @_extract_property_data_enhanced Latin1.db tag_studio true
  = Ok (Some record_studio).
Proof. vm_compute. reflexivity. Qed.

Lemma title_and_numbers_witness :
  bedrooms record_studio = Some 0%Z /\ title record_studio = str "Apartment".
Proof.
  split; [reflexivity|].
  rewrite (proj1 (title_and_numbers Latin1.db tag_studio true record_studio
                    extract_studio)).
  reflexivity.
Defined.

Lemma digits_value_fails (U : Unicode) (s : pystr) c :
  c ∈ s -> decimal c = None -> forall acc, digits_value s acc = None.
Proof.
  induction s as [|a s IH]; intros Hin Hc acc; [apply elem_of_nil in Hin as []|].
  simpl. apply elem_of_cons in Hin as [<-|Hin]; [rewrite Hc; reflexivity|].
  destruct (decimal a); [apply IH; assumption | reflexivity].
Qed.

Lemma replace_keeps (s : pystr) c x :
  c ∈ s -> c <> x -> c ∈ replace x [] s.
Proof.
  intros Hin Hne. unfold replace. apply list_elem_of_In, in_flat_map.
  exists c. split; [apply list_elem_of_In; exact Hin|].
  destruct (c =? x) eqn:E; [apply N.eqb_eq in E; congruence | left; reflexivity].
Qed.

(** X4. When the matched price holds a character that is no decimal
    digit, space (code point 32) or comma, as a no-break space between the
    groups of digits, the conversion of the price fails silently: the
    record is emitted without price, and its same-page key has no price. *)
Theorem price_lost (U : Unicode) (element : Tag) (extract_images : bool)
    (r : property_data) (g : pystr) (c : N) :
  _extract_property_data_enhanced element extract_images = Ok (Some r) ->
  Re.search price_re (e_text element) = Some (Some g) ->
  c ∈ g -> c <> 32 -> c <> 44 -> decimal c = None ->
  price r = None /\ dedup_key r = (None, bedrooms r, size_sqm r).
Proof.
  intros H Hs Hin H32 H44 Hc.
  apply extract_inv in H as (_ & type0 & Hp & _).
  assert (Hprice : price r = None).
  { unfold price_step in Hp. rewrite Hs in Hp. unfold py_int in Hp.
    rewrite (digits_value_fails U (replace 32 [] (replace 44 [] g)) c) in Hp.
    - destruct (replace 32 [] (replace 44 [] g)); congruence.
    - apply replace_keeps; [apply replace_keeps|]; assumption.
    - exact Hc. }
  split; [exact Hprice|]. unfold dedup_key. rewrite Hprice. reflexivity.
Qed.

Lemma extract_nbsp :
  @_extract_property_data_enhanced Latin1.db tag_nbsp true
  = Ok (Some record_nbsp).
Proof. vm_compute. reflexivity. Qed.

Lemma price_lost_witness :
  price record_nbsp = None
  /\ dedup_key record_nbsp = (None, bedrooms record_nbsp, size_sqm record_nbsp).
Proof.
  apply (price_lost Latin1.db tag_nbsp true record_nbsp price_nbsp 160).
  - exact extract_nbsp.
  - vm_compute. reflexivity.
  - vm_compute. right. left.
  - discriminate.
  - discriminate.
  - reflexivity.
Defined.

Lemma features_filter (U : Unicode) text (l : list (Re.regex * pystr)) :
  forall acc : list pystr,
    fold_left (fun features pf =>
                 if Re.matches (fst pf) text then features ++ [snd pf]
                 else features) l acc
    = acc ++ List.map snd
               (List.filter (fun pf => Re.matches (fst pf) text) l).
Proof.
  induction l as [|pf rest IH]; intros acc; simpl; [rewrite app_nil_r; reflexivity|].
  rewrite IH. destruct (Re.matches (fst pf) text); [|reflexivity].
  simpl. rewrite <- app_assoc. reflexivity.
Qed.

Lemma vocabulary_distinct : NoDup vocabulary.
Proof. apply (bool_decide_unpack _). vm_compute. exact I. Qed.

(** X5. The highlights of a record are listed in the order of the
    vocabulary (Pool, Parking, Garden, Security, Balcony, Pet Friendly,
    Furnished, Sea Views, Mountain Views), each at most once. *)
Theorem highlights_in_order (U : Unicode) (element : Tag)
    (extract_images : bool) (r : property_data) (l : list pystr) :
  _extract_property_data_enhanced element extract_images = Ok (Some r) ->
  highlights r = Some l ->
  l `sublist_of` vocabulary /\ NoDup l.
Proof.
  intros H Hl. apply extract_record in H as (type0 & _ & _ & _ & _ & Hh).
  assert (Hf : l = features (lower (e_text element))).
  { rewrite Hh in Hl. destruct (features _); congruence. }
  assert (Hsub : l `sublist_of` vocabulary).
  { assert (Hgen : forall pats : list (Re.regex * pystr),
      List.map snd (List.filter (fun pf => Re.matches (fst pf)
                                  (lower (e_text element))) pats)
      `sublist_of` List.map snd pats).
    { induction pats as [|pf rest IH]; simpl; [constructor|].
      destruct (Re.matches _ _); simpl;
        [apply sublist_skip | apply sublist_cons]; exact IH. }
    rewrite Hf. unfold features, vocabulary. rewrite features_filter.
    apply Hgen. }
  split; [exact Hsub|]. eapply sublist_NoDup; [apply vocabulary_distinct | exact Hsub].
Qed.

Lemma highlights_in_order_witness :
  [str "Pool"; str "Security"] `sublist_of` vocabulary
  /\ NoDup [str "Pool"; str "Security"].
Proof.
  exact (highlights_in_order Latin1.db tag_c9 true record_c9
           [str "Pool"; str "Security"] FieldExtractor.extract_c9 eq_refl).
Defined.

(** X6. [_extract_property_data_simple] accepts and rejects the fragments
    that [_extract_property_data_enhanced] does, with either flag, and
    returns the same record without the [images] key. *)
Theorem simple_drops_images (U : Unicode) (element : Tag)
    (extract_images : bool) :
  (_extract_property_data_simple element = Ok None
   <-> _extract_property_data_enhanced element extract_images = Ok None)
  /\ (forall r,
        _extract_property_data_enhanced element extract_images = Ok (Some r) ->
        _extract_property_data_simple element
        = Ok (Some {| price := price r; bedrooms := bedrooms r;
                      bathrooms := bathrooms r; size_sqm := size_sqm r;
                      type := type r; url := url r; images := None;
                      highlights := highlights r; title := title r;
                      neighborhood_vibe := neighborhood_vibe r;
                      area := area r; selector_used := selector_used r |})).
Proof.
  unfold _extract_property_data_simple, _extract_property_data_enhanced.
  destruct (_ || _); [split; [tauto | discriminate]|].
  destruct (price_step _) as [[p type0]|]; [|split; [tauto | discriminate]].
  destruct (int_group (Re.search bed_re _)) as [b|];
    [|split; [split; discriminate | discriminate]].
  destruct (int_group (Re.search bath_re _)) as [ba|];
    [|split; [split; discriminate | discriminate]].
  destruct (int_group (Re.search size_re _)) as [sz|];
    [|split; [split; discriminate | discriminate]].
  simpl. split; [split; discriminate|]. intros r [= <-]. reflexivity.
Qed.

(** X19. The [url] of a record, when set, is an absolute URL of a for-sale
    listing: it starts with http and holds the for-sale marker. *)
Theorem url_absolute (U : Unicode) (element : Tag) (extract_images : bool)
    (r : property_data) (u : pystr) :
  _extract_property_data_enhanced element extract_images = Ok (Some r) ->
  url r = Some u ->
  startswith u (str "http") = true /\ contains (str "/for-sale/") u = true.
Proof.
  intros H Hu. apply extract_inv in H
    as (_ & type0 & _ & _ & _ & _ & _ & Hurl & _).
  rewrite Hurl in Hu. unfold listing_url in Hu.
  destruct (e_anchors element) as [|href rest]; [discriminate|].
  destruct (contains (str "/for-sale/") href) eqn:Hc; [|discriminate].
  destruct (startswith href (str "http")) eqn:Hs; injection Hu as <-.
  - auto.
  - split; [reflexivity|]. apply contains_spec in Hc as (before & after & ->).
    apply contains_spec.
    exists (str "https://www.property24.com" ++ before), after.
    rewrite <- app_assoc. reflexivity.
Qed.

Lemma url_absolute_witness :
  startswith (str "https://www.property24.com/for-sale/sea-point/1")
    (str "http") = true
  /\ contains (str "/for-sale/")
       (str "https://www.property24.com/for-sale/sea-point/1") = true.
Proof.
  exact (url_absolute Latin1.db tag_one_anchor true record_one_anchor
           (str "https://www.property24.com/for-sale/sea-point/1")
           FieldExtractor.extract_one_anchor eq_refl).
Defined.

End ExtractorExtras.

(** ** The image resolver *)
Module ImageExtras.
Import PyStr Scraper ScraperRest Examples MoreExamples ImageFacts PyStrFacts.

Lemma full_url_http (u : pystr) : startswith (full_url u) (str "http") = true.
Proof.
  unfold full_url. destruct (startswith u (str "http")) eqn:E; [exact E|].
  destruct (startswith u (str "//")); reflexivity.
Qed.

Lemma from_img_listing (images : list json) (img : img_tag) :
  Forall listing_image images -> Forall listing_image (from_img images img).
Proof.
  intros H. unfold from_img. destruct (existsb _ (img_class img)); [exact H|].
  destruct (or_else _ _) as [img_url|]; [|exact H].
  destruct (truthy img_url); [|exact H].
  destruct (_ || _); [exact H|].
  destruct (existsb _ _) eqn:E; [|exact H].
  apply Forall_app. split; [exact H|]. constructor; [|constructor].
  exists (full_url img_url). split; [reflexivity|].
  split; [apply full_url_http|].
  assert (H24 : contains (str "property24") (full_url img_url) = true ->
                contains (str "property") (full_url img_url) = true)
    by exact (contains_part [] (str "property") (str "24") (full_url img_url)).
  cbn [existsb] in E.
  destruct (contains (str "property24") (full_url img_url));
    destruct (contains (str "property") (full_url img_url));
    destruct (contains (str "listing") (full_url img_url));
    destruct (contains (str "p24") (full_url img_url));
    try reflexivity; try discriminate E;
    specialize (H24 eq_refl); discriminate H24.
Qed.

Lemma from_style_listing (U : Unicode) (images : list json) (style : pystr) :
  Forall listing_image images -> Forall listing_image (from_style images style).
Proof.
  intros H. unfold from_style. destruct (Re.search _ _) as [[g|]|]; try exact H.
  destruct (_ || _) eqn:E; [|exact H].
  apply Forall_app. split; [exact H|]. constructor; [|constructor].
  exists (full_url g). split; [reflexivity|]. split; [apply full_url_http|].
  rewrite E. reflexivity.
Qed.

Lemma fold_listing {A} (step : list json -> A -> list json) (l : list A) :
  (forall images x, Forall listing_image images ->
     Forall listing_image (step images x)) ->
  forall images, Forall listing_image images ->
    Forall listing_image (fold_left step l images).
Proof.
  intros Hstep. induction l as [|x l IH]; intros images H; simpl; auto.
Qed.

Lemma result_gathered (U : Unicode) (element : Tag) v :
  v ∈ extract_property_images element -> v ∈ gather_images element.
Proof.
  destruct (images_cases element) as [(x & _ & ->)|(unique & Hu & _ & ->)].
  - intros H. apply elem_of_nil in H as [].
  - intros H. apply unique_from_start in Hu as (_ & Hsub & _).
    eapply elem_of_sublist; [|exact Hsub].
    eapply elem_of_sublist; [exact H | apply sublist_take].
Qed.

(** X7. For a fragment without embedded JSON, every image that the
    resolver returns is a string that starts with http (a relative source
    is made absolute) and names property, listing or p24. *)
Theorem images_absolute (U : Unicode) (element : Tag) (v : json) :
  e_json_scripts element = [] ->
  v ∈ extract_property_images element ->
  exists s, v = JStr s
    /\ startswith s (str "http") = true
    /\ contains (str "property") s || contains (str "listing") s
       || contains (str "p24") s = true.
Proof.
  intros Hjson Hv. apply result_gathered in Hv.
  assert (H : Forall listing_image (gather_images element)).
  { unfold gather_images. rewrite Hjson. simpl.
    apply fold_listing; [intros; apply from_style_listing; assumption|].
    apply fold_listing; [intros; apply from_img_listing; assumption|].
    constructor. }
  rewrite Forall_forall in H. exact (H v Hv).
Qed.

Lemma images_absolute_witness :
  exists s, JStr (str "https://images.prop24.com/listing/1.jpg") = JStr s
    /\ startswith s (str "http") = true
    /\ contains (str "property") s || contains (str "listing") s
       || contains (str "p24") s = true.
Proof.
  apply (images_absolute Latin1.db tag_two_images); [reflexivity|].
  vm_compute. left.
Defined.

(** A loop whose body only appends to the list gives the list it started
    from, followed by what it gives from the empty list. *)
Lemma fold_append {A} (step : list json -> A -> list json) :
  (forall acc x, step acc x = acc ++ step [] x) ->
  forall l acc, fold_left step l acc = acc ++ fold_left step l [].
Proof.
  intros Hstep. induction l as [|x l IH]; intros acc; simpl.
  - rewrite app_nil_r. reflexivity.
  - rewrite (IH (step acc x)), (IH (step [] x)), (Hstep acc x), app_assoc.
    reflexivity.
Qed.

Lemma from_img_append (acc : list json) (img : img_tag) :
  from_img acc img = acc ++ from_img [] img.
Proof.
  unfold from_img. destruct (existsb _ (img_class img)); [rewrite app_nil_r; reflexivity|].
  destruct (or_else _ _) as [img_url|]; [|rewrite app_nil_r; reflexivity].
  destruct (truthy img_url); [|rewrite app_nil_r; reflexivity].
  destruct (_ || _); [rewrite app_nil_r; reflexivity|].
  destruct (existsb _ _); [reflexivity | rewrite app_nil_r; reflexivity].
Qed.

Lemma from_style_append (U : Unicode) (acc : list json) (style : pystr) :
  from_style acc style = acc ++ from_style [] style.
Proof.
  unfold from_style.
  destruct (Re.search _ _) as [[g|]|]; try (rewrite app_nil_r; reflexivity).
  destruct (_ || _); [reflexivity | rewrite app_nil_r; reflexivity].
Qed.

Lemma collect_item_append (acc : list json) (item : json) :
  collect_item acc item = acc ++ collect_item [] item.
Proof.
  unfold collect_item. destruct item; try (rewrite app_nil_r; reflexivity).
  - destruct (startswith _ _); [reflexivity | rewrite app_nil_r; reflexivity].
  - destruct (dict_get _ _); [reflexivity | rewrite app_nil_r; reflexivity].
Qed.

(** The walk over embedded data only appends to [images]. *)
Lemma walk_append (n : nat) :
  forall data images depth, (6 - depth <= n)%nat ->
    _extract_images_from_json data images depth
    = images ++ _extract_images_from_json data [] depth.
Proof.
  induction n as [|n IH]; intros data images depth Hn.
  - destruct data; simpl; destruct (5 <? depth)%nat eqn:E;
      try (rewrite app_nil_r; reflexivity); apply Nat.ltb_ge in E; lia.
  - destruct data; simpl; destruct (5 <? depth)%nat eqn:E;
      try (rewrite app_nil_r; reflexivity); apply Nat.ltb_ge in E.
    + revert images. induction items as [|item rest IHl]; intros acc; simpl.
      * rewrite app_nil_r. reflexivity.
      * etrans; [apply IHl|].
        match goal with |- _ = _ ++ ?F rest ?a0 => rewrite (IHl a0) end.
        rewrite app_assoc. f_equal.
        destruct item; try (rewrite app_nil_r; reflexivity).
        apply IH. lia.
    + revert images. induction members as [|[key value] rest IHl];
        intros acc; simpl.
      * rewrite app_nil_r. reflexivity.
      * etrans; [apply IHl|].
        match goal with |- _ = _ ++ ?F rest ?a0 => rewrite (IHl a0) end.
        rewrite app_assoc. f_equal.
        destruct (is_image_key key).
        -- destruct value; try (rewrite app_nil_r; reflexivity).
           apply fold_append, collect_item_append.
        -- destruct value; try (rewrite app_nil_r; reflexivity);
             apply IH; lia.
Qed.

Lemma from_script_append (acc : list json) (script : exc json) :
  from_script acc script = acc ++ from_script [] script.
Proof.
  unfold from_script. destruct script as [[]|];
    try (rewrite app_nil_r; reflexivity).
  apply (walk_append 6). lia.
Qed.

(** X8. The image resolver gathers the results of its three methods one
    after the other: first what the image tags give, then the background
    images of the style attributes, then the embedded JSON blocks; what
    a method gives does not depend on the methods before it. *)
Theorem gathered_in_priority_order (U : Unicode) (element : Tag) :
  gather_images element
  = fold_left from_img (e_imgs element) []
    ++ fold_left from_style
         (List.filter (Re.matches (Re.lit "background-image"))
            (e_styles element)) []
    ++ fold_left from_script (e_json_scripts element) [].
Proof.
  unfold gather_images.
  rewrite (fold_append from_script from_script_append).
  rewrite (fold_append from_style (from_style_append U)).
  rewrite app_assoc. reflexivity.
Qed.

Lemma walk_image_list (url : pystr) depth :
  startswith url (str "http") = true ->
  _extract_images_from_json (image_list url) [] depth
  = if (5 <? depth)%nat then [] else [JStr url].
Proof.
  intros Hurl. unfold image_list, _extract_images_from_json.
  destruct (5 <? depth)%nat; [reflexivity|].
  change (is_image_key (str "images")) with true. cbv iota.
  cbn [fold_left]. unfold collect_item. rewrite Hurl. reflexivity.
Qed.

Lemma walk_step (data : json) depth :
  (exists members, data = JObj members) ->
  _extract_images_from_json (JObj [(str "data", data)]) [] depth
  = if (5 <? depth)%nat then []
    else _extract_images_from_json data [] (S depth).
Proof.
  intros [members ->]. unfold _extract_images_from_json at 1.
  fold _extract_images_from_json.
  destruct (5 <? depth)%nat; [reflexivity|].
  change (is_image_key (str "data")) with false. reflexivity.
Qed.

Lemma wrapped_object d url : exists members, wrapped d (image_list url) = JObj members.
Proof. destruct d; cbn [wrapped]; [unfold image_list|]; eauto. Qed.

Lemma walk_wrapped (url : pystr) :
  startswith url (str "http") = true ->
  forall d depth,
    _extract_images_from_json (wrapped d (image_list url)) [] depth
    = if (depth + d <=? 5)%nat then [JStr url] else [].
Proof.
  intros Hurl. induction d as [|d IH]; intros depth.
  - cbn [wrapped]. rewrite (walk_image_list url depth Hurl), Nat.add_0_r.
    destruct (5 <? depth)%nat eqn:E.
    + apply Nat.ltb_lt in E. rewrite (proj2 (Nat.leb_gt _ _)) by lia. reflexivity.
    + apply Nat.ltb_ge in E. rewrite (proj2 (Nat.leb_le _ _)) by lia. reflexivity.
  - cbn [wrapped]. rewrite (walk_step _ depth (wrapped_object d url)), IH.
    destruct (5 <? depth)%nat eqn:E.
    + apply Nat.ltb_lt in E. rewrite (proj2 (Nat.leb_gt _ _)) by lia. reflexivity.
    + replace (depth + S d)%nat with (S depth + d)%nat by lia. reflexivity.
Qed.

(** X9. The walk over an embedded JSON block stops at depth 5: an image
    list under at most 5 nested objects is found, one under 6 or more is
    not. *)
Theorem depth_ceiling (url : pystr) (d : nat) :
  startswith url (str "http") = true ->
  from_script [] (Ok (wrapped d (image_list url)))
  = if (d <=? 5)%nat then [JStr url] else [].
Proof.
  intros Hurl. pose proof (walk_wrapped url Hurl d 0) as H.
  cbn [Nat.add] in H.
  destruct (wrapped_object d url) as [members Hm]. rewrite Hm in *. exact H.
Qed.

Lemma depth_ceiling_witness :
  from_script [] (Ok (wrapped 5 (image_list (str "https://x/property/1.jpg"))))
  = [JStr (str "https://x/property/1.jpg")]
  /\ from_script [] (Ok (wrapped 6 (image_list (str "https://x/property/1.jpg"))))
     = [].
Proof.
  split.
  - exact (depth_ceiling (str "https://x/property/1.jpg") 5 eq_refl).
  - exact (depth_ceiling (str "https://x/property/1.jpg") 6 eq_refl).
Defined.

End ImageExtras.

(** ** The details page *)
Module DetailsExtras.
Import PyStr Scraper ScraperRest ImageFacts ImageExtras.






End DetailsExtras.

(** ** The page assembler *)
Module AssemblerExtras.
Import PyStr Scraper ScraperRest Examples MoreExamples AssemblerFacts.

Lemma discovered_located (U : Unicode) soup extract_images selector prop :
  (selector, prop) ∈ discovered soup extract_images ->
  selector ∈ selectors
  /\ exists element container,
       element ∈ select soup selector
       /\ container_of element = Some container
       /\ _extract_property_data_enhanced container extract_images
          = Ok (Some prop).
Proof.
  unfold discovered. rewrite list_elem_of_In, in_flat_map.
  intros (sel & Hsel & Hin). apply in_map_iff in Hin as (prop' & [= -> ->] & Hin).
  split; [apply list_elem_of_In; exact Hsel|].
  apply in_flat_map in Hin as (element & Hel & Hin). unfold fragment in Hin.
  destruct (container_of element) as [container|] eqn:Hc; [|destruct Hin].
  exists element, container. split; [apply list_elem_of_In; exact Hel|].
  split; [exact Hc|].
  destruct (_extract_property_data_enhanced container extract_images)
    as [[prop'|]|]; [|destruct Hin..].
  destruct Hin as [->|[]]. reflexivity.
Qed.

(** X11. Every record of a page carries the area given to the assembler
    and the selector that located its fragment, one of the 13 selectors;
    it is the record that the field extractor gives for the container of
    an element matched by that selector. The records stand in the order of
    discovery, and the page yields no record exactly when no fragment is
    accepted. *)
Theorem page_records_stamped (U : Unicode) (soup : soup) (area : pystr)
    (extract_images : bool) :
  exists out,
    _extract_all_properties_from_page soup area extract_images = Ok out
    /\ (forall r, r ∈ out ->
          Scraper.area r = Some area
          /\ exists selector element container prop,
               selector_used r = Some selector
               /\ selector ∈ selectors
               /\ element ∈ select soup selector
               /\ container_of element = Some container
               /\ _extract_property_data_enhanced container extract_images
                  = Ok (Some prop)
               /\ r = stamp area selector prop)
    /\ out `sublist_of`
         (fun c => stamp area c.1 c.2) <$> discovered soup extract_images
    /\ (out = [] <-> discovered soup extract_images = []).
Proof.
  destruct (assemble_spec soup area extract_images)
    as (out & Hout & _ & Hsub & Hfirst & Hall).
  exists out. split; [exact Hout|]. split; [|split; [exact Hsub|]].
  - intros r Hr.
    destruct (Hfirst r Hr) as (pre & selector & prop & post & Hd & -> & _).
    split; [reflexivity|].
    assert (Hin : (selector, prop) ∈ discovered soup extract_images).
    { rewrite Hd. apply elem_of_app. right. left. }
    apply discovered_located in Hin as (Hsel & element & container & H1 & H2 & H3).
    exists selector, element, container, prop. repeat split; auto.
  - split.
    + intros ->. destruct (discovered soup extract_images) as [|c rest];
        [reflexivity|].
      exfalso. eapply elem_of_nil. apply (Hall c). left.
    + intros Hd. rewrite Hd in Hsub. simpl in Hsub.
      apply sublist_nil_r in Hsub. exact Hsub.
Qed.

Lemma ancestors_eq (c : Tag) :
  ancestors c = match e_parent c with
                | Some parent => parent :: ancestors parent
                | None => []
                end.
Proof. destruct c. reflexivity. Qed.

Lemma enclosing_eq (c : Tag) :
  enclosing c = if (length (e_raw_text c) <? 50)%nat then
                  match e_parent c with
                  | Some parent => enclosing parent
                  | None => None
                  end
                else Some c.
Proof. destruct c. reflexivity. Qed.

(** The upward walk stops at the nearest element with 50 characters of
    text, or runs out of ancestors. *)
Lemma enclosing_spec (n : nat) :
  forall c, (length (ancestors c) <= n)%nat ->
    match enclosing c with
    | Some container =>
        exists pre post, c :: ancestors c = pre ++ container :: post
          /\ (50 <= length (e_raw_text container))%nat
          /\ Forall (fun a => (length (e_raw_text a) < 50)%nat) pre
    | None =>
        Forall (fun a => (length (e_raw_text a) < 50)%nat) (c :: ancestors c)
    end.
Proof.
  induction n as [|n IH]; intros c Hn; rewrite enclosing_eq;
    rewrite ancestors_eq in Hn |- *.
  - destruct (length (e_raw_text c) <? 50)%nat eqn:E.
    + apply Nat.ltb_lt in E. destruct (e_parent c); [simpl in Hn; lia|].
      constructor; [exact E | constructor].
    + apply Nat.ltb_ge in E. exists [], (match e_parent c with
                                          | Some parent => parent :: ancestors parent
                                          | None => []
                                          end).
      repeat split; [exact E | constructor].
  - destruct (length (e_raw_text c) <? 50)%nat eqn:E.
    + apply Nat.ltb_lt in E. destruct (e_parent c) as [parent|].
      * simpl in Hn. specialize (IH parent ltac:(lia)).
        destruct (enclosing parent) as [container|].
        -- destruct IH as (pre & post & Heq & H50 & Hpre).
           exists (c :: pre), post. rewrite Heq. repeat split; auto.
        -- constructor; assumption.
      * constructor; [exact E | constructor].
    + apply Nat.ltb_ge in E. exists [], (match e_parent c with
                                          | Some parent => parent :: ancestors parent
                                          | None => []
                                          end).
      repeat split; [exact E | constructor].
Qed.

(** X12. The fragment of a matched element that is no link is the element
    itself. The fragment of a link is its nearest ancestor whose text has
    at least 50 characters: every ancestor below it has less. A link
    without such an ancestor gives no fragment. *)
Theorem link_container (element : Tag) :
  (e_name element <> str "a" -> container_of element = Some element)
  /\ (e_name element = str "a" ->
      match container_of element with
      | Some container =>
          exists pre post, ancestors element = pre ++ container :: post
            /\ (50 <= length (e_raw_text container))%nat
            /\ Forall (fun a => (length (e_raw_text a) < 50)%nat) pre
      | None =>
          Forall (fun a => (length (e_raw_text a) < 50)%nat) (ancestors element)
      end).
Proof.
  unfold container_of. split.
  - intros H. rewrite bool_decide_eq_false_2 by exact H. reflexivity.
  - intros H. rewrite bool_decide_eq_true_2 by exact H.
    rewrite ancestors_eq. destruct (e_parent element) as [parent|]; [|constructor].
    exact (enclosing_spec (length (ancestors parent)) parent (Nat.le_refl _)).
Qed.

Lemma link_container_witness :
  exists pre post,
    ancestors link_in_block = pre ++ block_long :: post
    /\ (50 <= length (e_raw_text block_long))%nat
    /\ Forall (fun a => (length (e_raw_text a) < 50)%nat) pre.
Proof. exact (proj2 (link_container link_in_block) eq_refl). Defined.

End AssemblerExtras.

(** ** The pagination controller *)
Module PaginationExtras.
Import PyStr Scraper ScraperRest Examples MoreExamples AssemblerFacts
  ControllerFacts.

Section Run.
Context {U : Unicode}.
Variable session_get : pystr -> exc response.
Variables (area transaction_type : pystr).
Variable max_pages : option Z.
Variable extract_images : bool.

Local Abbreviation iteration :=
  (iteration session_get area transaction_type max_pages extract_images).
Local Abbreviation scrape_loop :=
  (scrape_loop session_get area transaction_type max_pages extract_images).
Local Abbreviation scrape_area :=
  (scrape_area session_get area transaction_type max_pages extract_images).
Local Abbreviation page_url := (page_url area transaction_type).
Local Abbreviation fetch_failed := (fetch_failed session_get).

(** A turn that ends in [break] after a request: the page was within the
    ceiling and its fetch failed. *)
Lemma iteration_break_request area_code st ev rest :
  iteration area_code st = (Break, ev :: rest) ->
  rest = [] /\ accepted ev = None
  /\ requested ev = page_url area_code (page st)
  /\ beyond_ceiling max_pages (page st) = false
  /\ fetch_failed (requested ev).
Proof.
  unfold Scraper.iteration.
  destruct (2 <=? _)%Z; [discriminate|].
  destruct (beyond_ceiling _ _); [discriminate|].
  destruct (session_get _) as [response|x] eqn:Hget.
  - destruct (negb _) eqn:Hst.
    + intros [= <- <-]. simpl. repeat split; auto. right.
      exists response. split; [exact Hget|].
      apply negb_true_iff, Z.eqb_neq in Hst. exact Hst.
    + rewrite (assemble_keep (page_soup response) area extract_images).
      destruct (filter_duplicates _ _). discriminate.
  - intros [= <- <-]. simpl. repeat split; auto. left. eauto.
Qed.

Lemma loop_requests area_code fuel :
  forall st result events,
    scrape_loop area_code fuel st = Some (result, events) ->
    forall i ev, events !! i = Some ev ->
      requested ev = page_url area_code (page st + Z.of_nat i).
Proof.
  induction fuel as [|fuel IH]; intros st result events; simpl; [discriminate|].
  destruct (iteration area_code st) as [[|st'] evs] eqn:Hit.
  - intros [= <- <-] i ev Hi. destruct evs as [|e rest]; [discriminate|].
    apply iteration_break_request in Hit as (-> & _ & Hreq & _).
    destruct i; [|discriminate]. injection Hi as <-.
    rewrite Hreq, Z.add_0_r. reflexivity.
  - destruct (scrape_loop area_code fuel st') as [[r later]|] eqn:Hloop;
      [|discriminate].
    intros [= <- <-] i ev Hi.
    apply iteration_next in Hit
      as (_ & _ & response & pp & _ & _ & _ & -> & _ & _ & Hpage & _).
    destruct i as [|i]; simpl in Hi.
    + injection Hi as <-. simpl. rewrite Z.add_0_r. reflexivity.
    + rewrite (IH _ _ _ Hloop i ev Hi), Hpage. f_equal. lia.
Qed.

Lemma loop_bounded area_code m fuel :
  max_pages = Some m -> (0 < m)%Z ->
  forall st result events,
    scrape_loop area_code fuel st = Some (result, events) ->
    (Z.of_nat (length events) <= Z.max 0 (m - page st + 1))%Z.
Proof.
  intros Hmax Hm. induction fuel as [|fuel IH]; intros st result events; simpl;
    [discriminate|].
  assert (Hceil : beyond_ceiling max_pages (page st) = false -> (page st <= m)%Z).
  { unfold beyond_ceiling. rewrite Hmax. intros H.
    apply andb_false_iff in H as [H|H].
    - apply negb_false_iff, Z.eqb_eq in H. lia.
    - apply Z.ltb_ge in H. exact H. }
  destruct (iteration area_code st) as [[|st'] evs] eqn:Hit.
  - intros [= <- <-]. destruct evs as [|e rest]; [simpl; lia|].
    apply iteration_break_request in Hit as (-> & _ & _ & Hb & _).
    apply Hceil in Hb. simpl. lia.
  - destruct (scrape_loop area_code fuel st') as [[r later]|] eqn:Hloop;
      [|discriminate].
    intros [= <- <-].
    apply iteration_next in Hit
      as (_ & Hb & response & pp & _ & _ & _ & -> & _ & _ & Hpage & _).
    apply Hceil in Hb. specialize (IH _ _ _ Hloop). rewrite Hpage in IH.
    simpl length. lia.
Qed.


End Run.

(** X13. A run requests pages only for a configured area: when the
    normalised area name is not in the table of area codes, [scrape_area]
    returns the empty list without any request, whatever the fuel. In
    every run the requests go, in order, to the pages 1, 2, 3, ... of the
    area's code. *)
Theorem requests_in_order (U : Unicode) (session_get : pystr -> exc response)
    (area transaction_type : pystr) (max_pages : option Z)
    (extract_images : bool) :
  (PROPERTY24_AREA_CODES !! area_normalized area = None ->
   forall fuel,
     scrape_area session_get area transaction_type max_pages extract_images
       fuel = Some ([], []))
  /\ (forall fuel result events,
        scrape_area session_get area transaction_type max_pages extract_images
          fuel = Some (result, events) ->
        forall i ev, events !! i = Some ev ->
          exists area_code,
            PROPERTY24_AREA_CODES !! area_normalized area = Some area_code
            /\ requested ev
               = page_url area transaction_type area_code (Z.of_nat i + 1)).
Proof.
  split.
  - intros H fuel. unfold scrape_area. rewrite H. reflexivity.
  - intros fuel result events. unfold scrape_area.
    destruct (PROPERTY24_AREA_CODES !! _) as [area_code|];
      [|intros [= <- <-] i ev Hi; discriminate].
    destruct (area_code =? 0)%Z; [intros [= <- <-] i ev Hi; discriminate|].
    intros H i ev Hi. exists area_code. split; [reflexivity|].
    rewrite (loop_requests _ _ _ _ _ _ _ _ _ _ H i ev Hi). simpl page.
    f_equal. lia.
Qed.

(** X14. Under a positive page ceiling [max_pages] the run returns (after
    at most [max_pages + 1] turns of the loop) and requests at most
    [max_pages] pages. *)
Theorem ceiling_respected (U : Unicode) (session_get : pystr -> exc response)
    (area transaction_type : pystr) (m : Z) (extract_images : bool) :
  (0 < m)%Z ->
  (exists r,
     scrape_area session_get area transaction_type (Some m) extract_images
       (S (Z.to_nat m)) = Some r)
  /\ (forall fuel result events,
        scrape_area session_get area transaction_type (Some m) extract_images
          fuel = Some (result, events) ->
        (Z.of_nat (length events) <= m)%Z).
Proof.
  intros Hm. split.
  - apply (Pagination.scrape_area_terminates session_get area transaction_type
             (Some m) extract_images m eq_refl Hm).
  - intros fuel result events. unfold scrape_area.
    destruct (PROPERTY24_AREA_CODES !! _) as [area_code|];
      [|intros [= <- <-]; simpl; lia].
    destruct (area_code =? 0)%Z; [intros [= <- <-]; simpl; lia|].
    intros H.
    pose proof (loop_bounded session_get area transaction_type (Some m)
                  extract_images area_code m fuel eq_refl Hm _ _ _ H) as Hb.
    simpl page in Hb. lia.
Qed.

Lemma ceiling_respected_witness :
  (exists r,
     @scrape_area Latin1.db same_page (str "Sea Point") (str "for-sale")
       (Some 10%Z) true 11 = Some r)
  /\ (forall fuel result events,
        @scrape_area Latin1.db same_page (str "Sea Point") (str "for-sale")
          (Some 10%Z) true fuel = Some (result, events) ->
        (Z.of_nat (length events) <= 10)%Z).
Proof.
  apply (ceiling_respected Latin1.db same_page (str "Sea Point")
           (str "for-sale") 10 true).
  lia.
Defined.

Lemma iteration_no_ceiling (U : Unicode) session_get area transaction_type
    extract_images area_code st :
  iteration session_get area transaction_type (Some 0%Z) extract_images
    area_code st
  = iteration session_get area transaction_type None extract_images
      area_code st.
Proof. reflexivity. Qed.

(** X15. A page ceiling of 0 is no ceiling: the run is the run without
    ceiling. A negative ceiling stops the loop before the first request:
    nothing is fetched and the empty list is returned. *)
Theorem ceiling_edge_cases (U : Unicode) (session_get : pystr -> exc response)
    (area transaction_type : pystr) (extract_images : bool) :
  (forall fuel,
     scrape_area session_get area transaction_type (Some 0%Z) extract_images
       fuel
     = scrape_area session_get area transaction_type None extract_images fuel)
  /\ (forall m fuel, (m < 0)%Z ->
        scrape_area session_get area transaction_type (Some m) extract_images
          (S fuel) = Some ([], [])).
Proof.
  split.
  - intros fuel. unfold scrape_area.
    destruct (PROPERTY24_AREA_CODES !! _) as [area_code|]; [|reflexivity].
    destruct (area_code =? 0)%Z; [reflexivity|].
    generalize initial. induction fuel as [|fuel IH]; intros st; simpl;
      [reflexivity|].
    rewrite iteration_no_ceiling.
    destruct (iteration _ _ _ None _ _ _) as [[|st'] evs]; [reflexivity|].
    rewrite IH. reflexivity.
  - intros m fuel Hm. unfold scrape_area.
    destruct (PROPERTY24_AREA_CODES !! _) as [area_code|]; [|reflexivity].
    destruct (area_code =? 0)%Z; [reflexivity|].
    simpl. unfold iteration. simpl.
    unfold beyond_ceiling.
    rewrite (proj2 (Z.eqb_neq m 0)) by lia.
    rewrite (proj2 (Z.ltb_lt m 1)) by lia. reflexivity.
Qed.



End PaginationExtras.

(** ** The caller's transformation *)
Module IntegrationExtras.
Import PyStr Scraper ScraperRest Integration Examples MoreExamples
  ExtractorFacts ImageFacts AssemblerFacts ControllerFacts.

Lemma valid_image_inv (v : json) (s : pystr) :
  valid_image v = Some s ->
  v = JStr s
  /\ startswith s (str "http://") || startswith s (str "https://") = true.
Proof.
  unfold valid_image. destruct v; try discriminate.
  destruct (_ || _) eqn:E; [|discriminate]. intros [= <-]. auto.
Qed.

Lemma valid_images_distinct (l : list json) :
  NoDup l -> NoDup (omap valid_image l).
Proof.
  induction 1 as [|v l Hv _ IH]; simpl; [constructor|].
  destruct (valid_image v) as [s|] eqn:E; [|exact IH].
  apply valid_image_inv in E as [-> _]. constructor; [|exact IH].
  intros Hin. apply Hv. apply list_elem_of_omap in Hin as (w & Hw & Hs).
  apply valid_image_inv in Hs as [-> _]. exact Hw.
Qed.

Lemma api_images_eq (scraper_property : property_data) :
  api_images (transform_scraper_output scraper_property)
  = firstn 5 (omap valid_image (default [] (images scraper_property))).
Proof.
  unfold transform_scraper_output. simpl.
  destruct (default [] (images scraper_property)); reflexivity.
Qed.

(** X17. Every image of a transformed record is a string that starts with
    http:// or https://; there are at most five, and they are the valid
    ones among the images of the scraper's record, in their order. Values
    that are no strings and strings with another prefix are dropped. *)
Theorem transformed_images_valid (scraper_property : property_data) :
  Forall (fun s => startswith s (str "http://")
                   || startswith s (str "https://") = true)
    (api_images (transform_scraper_output scraper_property))
  /\ (length (api_images (transform_scraper_output scraper_property)) <= 5)%nat
  /\ api_images (transform_scraper_output scraper_property)
     = firstn 5 (omap valid_image (default [] (images scraper_property)))
  /\ JStr <$> api_images (transform_scraper_output scraper_property)
     `sublist_of` default [] (images scraper_property).
Proof.
  rewrite api_images_eq. split; [|split; [rewrite length_take; lia|split; [reflexivity|]]].
  - apply Forall_take. generalize (default [] (images scraper_property)).
    induction l as [|v l IH]; simpl; [constructor|].
    destruct (valid_image v) as [s|] eqn:E; [|exact IH].
    apply valid_image_inv in E as [_ E]. constructor; assumption.
  - etrans; [apply fmap_sublist, sublist_take|].
    generalize (default [] (images scraper_property)).
    induction l as [|v l IH]; simpl; [constructor|].
    destruct (valid_image v) as [s|] eqn:E.
    + apply valid_image_inv in E as [-> _]. simpl. apply sublist_skip. exact IH.
    + apply sublist_cons. exact IH.
Qed.

Lemma images_distinct (U : Unicode) (element : Tag) :
  NoDup (extract_property_images element).
Proof.
  destruct (images_cases element) as [(x & _ & ->)|(unique & Hu & _ & ->)].
  - constructor.
  - apply unique_from_start in Hu as (Hnd & _).
    eapply sublist_NoDup; [eapply NoDup_fmap_1; exact Hnd | apply sublist_take].
Qed.

(** The records of a page are stamped records of the field extractor. *)
Lemma assembled_records (U : Unicode) soup area extract_images out r :
  _extract_all_properties_from_page soup area extract_images = Ok out ->
  r ∈ out ->
  exists selector container prop,
    selector ∈ selectors
    /\ _extract_property_data_enhanced container extract_images = Ok (Some prop)
    /\ r = stamp area selector prop.
Proof.
  intros Hout Hr.
  destruct (assemble_spec soup area extract_images)
    as (out' & Hout' & _ & _ & Hfirst & _).
  rewrite Hout in Hout'. injection Hout' as <-.
  destruct (Hfirst r Hr) as (pre & selector & prop & post & Hd & -> & _).
  assert (Hin : (selector, prop) ∈ discovered soup extract_images).
  { rewrite Hd. apply elem_of_app. right. left. }
  apply AssemblerExtras.discovered_located
    in Hin as (Hsel & element & container & _ & _ & Hex).
  eauto 10.
Qed.

(** X18. For every record that [scrape_area] returns, the transformed
    record carries the area given to [scrape_area] (never the default
    Unknown of the transformation), the selector that located it, the
    title and type of the record, and pairwise distinct images. *)
Theorem transformed_scraped_record (U : Unicode)
    (session_get : pystr -> exc response) (area transaction_type : pystr)
    (max_pages : option Z) (extract_images : bool) (fuel : nat)
    (result : list property_data) (events : list event) (r : property_data) :
  scrape_area session_get area transaction_type max_pages extract_images fuel
  = Some (result, events) ->
  r ∈ result ->
  api_area (transform_scraper_output r) = area
  /\ (exists selector, selector ∈ selectors
        /\ api_selector_used (transform_scraper_output r) = Some selector)
  /\ api_title (transform_scraper_output r) = title r
  /\ api_property_type (transform_scraper_output r) = type r
  /\ NoDup (api_images (transform_scraper_output r)).
Proof.
  intros H Hr. apply Pagination.run_spec in H as (-> & _ & Hev).
  apply list_elem_of_In, in_concat in Hr as (chunk & Hchunk & Hin).
  apply list_elem_of_In, Pagination.chunk_event in Hchunk as (ev & Hev' & Hacc).
  rewrite Forall_forall in Hev.
  destruct (Hev ev Hev' chunk Hacc) as (response & pp & _ & _ & Hpp & Hsub & _).
  assert (Hrpp : r ∈ pp)
    by (eapply elem_of_sublist; [apply list_elem_of_In; exact Hin | exact Hsub]).
  destruct (assembled_records U _ _ _ _ _ Hpp Hrpp)
    as (selector & container & prop & Hsel & Hex & ->).
  split; [reflexivity|]. split; [eauto|]. split; [reflexivity|].
  split; [reflexivity|].
  rewrite api_images_eq.
  eapply sublist_NoDup; [|apply sublist_take].
  apply valid_images_distinct. simpl.
  apply extract_inv in Hex as (_ & type0 & _ & _ & _ & _ & _ & _ & Himg & _).
  rewrite Himg. destruct extract_images; [|constructor].
  pose proof (images_distinct U container) as Hnd.
  destruct (extract_property_images container); [constructor | exact Hnd].
Qed.

Lemma transformed_scraped_record_witness :
  api_area (transform_scraper_output (hd no_record result_two_pages))
  = str "Sea Point"
  /\ (exists selector, selector ∈ selectors
        /\ api_selector_used
             (transform_scraper_output (hd no_record result_two_pages))
           = Some selector)
  /\ api_title (transform_scraper_output (hd no_record result_two_pages))
     = title (hd no_record result_two_pages)
  /\ api_property_type (transform_scraper_output (hd no_record result_two_pages))
     = type (hd no_record result_two_pages)
  /\ NoDup (api_images
              (transform_scraper_output (hd no_record result_two_pages))).
Proof.
  apply (transformed_scraped_record Latin1.db two_pages (str "Sea Point")
           (str "for-sale") None true 3 result_two_pages trace_two_pages).
  - exact Pagination.run_two_pages_result.
  - left.
Defined.

End IntegrationExtras.
